(** * A shallow embedding of [blockchain.py]

    The development follows the class [Blockchain] of [src/blockchain.py]:
    the proof-of-work predicate and search ([valid_proof], [proof_of_work]),
    the ledger operations ([new_block], [new_transaction], [__init__]), the
    chain scan ([valid_chain]) and the consensus procedure
    ([resolve_conflicts]).

    Python integers are [Z], strings are [string] (read as their UTF-8
    bytes), lists are [list], a raised exception is a constructor of [exn],
    and a [while] loop that the source does not bound is run on fuel. *)

From Stdlib Require Import ZArith String Ascii Bool Lia DecimalString List Permutation.
Import ListNotations.
Local Open Scope Z_scope.

(** ** SHA-256 ([hashlib.sha256]), after FIPS 180-4 *)

Module Sha256.

(** 32-bit words are [Z] in [0, 2^32); every sum is reduced. *)
Definition wrap32 (x : Z) : Z := Z.land x 0xffffffff.
Definition add32 (x y : Z) : Z := wrap32 (x + y).
Definition not32 (x : Z) : Z := Z.lxor x 0xffffffff.
Definition rotr (n x : Z) : Z :=
  Z.lor (Z.shiftr x n) (wrap32 (Z.shiftl x (32 - n))).

Definition Ch (x y z : Z) : Z := Z.lxor (Z.land x y) (Z.land (not32 x) z).
Definition Maj (x y z : Z) : Z :=
  Z.lxor (Z.lxor (Z.land x y) (Z.land x z)) (Z.land y z).
Definition bsig0 (x : Z) : Z := Z.lxor (Z.lxor (rotr 2 x) (rotr 13 x)) (rotr 22 x).
Definition bsig1 (x : Z) : Z := Z.lxor (Z.lxor (rotr 6 x) (rotr 11 x)) (rotr 25 x).
Definition ssig0 (x : Z) : Z := Z.lxor (Z.lxor (rotr 7 x) (rotr 18 x)) (Z.shiftr x 3).
Definition ssig1 (x : Z) : Z := Z.lxor (Z.lxor (rotr 17 x) (rotr 19 x)) (Z.shiftr x 10).

(** The constants are defined the way the standard derives them: the
    first 32 bits of the fractional parts of the square roots (initial
    hash value) and cube roots (round constants) of the first primes. *)
Fixpoint no_divisor (fuel : nat) (d n : Z) : bool :=
  match fuel with
  | O => true
  | S fuel' =>
      if n <? d * d then true
      else if n mod d =? 0 then false
      else no_divisor fuel' (d + 1) n
  end.

Definition is_prime (n : Z) : bool := (2 <=? n) && no_divisor (Z.to_nat n) 2 n.

Fixpoint primes_from (fuel count : nat) (n : Z) : list Z :=
  match fuel, count with
  | O, _ | _, O => []
  | S fuel', S count' =>
      if is_prime n then n :: primes_from fuel' count' (n + 1)
      else primes_from fuel' count (n + 1)
  end.

Definition first_primes (count : nat) : list Z := primes_from 400 count 2.

(** Integer cube root, one bit at a time from bit [bits - 1] down. *)
Fixpoint icbrt (bits : nat) (n acc : Z) : Z :=
  match bits with
  | O => acc
  | S bits' =>
      let c := acc + 2 ^ Z.of_nat bits' in
      if c * c * c <=? n then icbrt bits' n c else icbrt bits' n acc
  end.

Definition H0 : list Z :=
  Eval vm_compute in
    map (fun p => wrap32 (Z.sqrt (p * 2 ^ 64))) (first_primes 8).

Definition K : list Z :=
  Eval vm_compute in
    map (fun p => wrap32 (icbrt 40 (p * 2 ^ 96) 0)) (first_primes 64).

(** Padding: a 1 bit, zeros up to 56 mod 64 bytes, the bit length on
    eight bytes, most significant first. *)
Definition be_bytes (count : nat) (x : Z) : list Z :=
  map (fun i => Z.land (Z.shiftr x (8 * Z.of_nat i)) 0xff) (rev (seq 0 count)).

Definition pad (msg : list Z) : list Z :=
  let len := Z.of_nat (length msg) in
  msg ++ [0x80] ++ repeat 0 (Z.to_nat ((55 - len) mod 64)) ++ be_bytes 8 (8 * len).

Fixpoint words_of (fuel : nat) (bytes : list Z) : list Z :=
  match fuel, bytes with
  | S fuel', b3 :: b2 :: b1 :: b0 :: rest =>
      (Z.shiftl b3 24 + Z.shiftl b2 16 + Z.shiftl b1 8 + b0) :: words_of fuel' rest
  | _, _ => []
  end.

(** Message schedule; [recent] holds the words computed so far, latest
    first, so W(t-2), W(t-7), W(t-15), W(t-16) sit at 1, 6, 14, 15. *)
Fixpoint schedule (more : nat) (recent : list Z) : list Z :=
  match more with
  | O => rev recent
  | S more' =>
      let w := add32 (add32 (ssig1 (nth 1 recent 0)) (nth 6 recent 0))
                     (add32 (ssig0 (nth 14 recent 0)) (nth 15 recent 0)) in
      schedule more' (w :: recent)
  end.

Record regs := Regs { ra : Z; rb : Z; rc : Z; rd : Z; re : Z; rf : Z; rg : Z; rh : Z }.

Definition round (r : regs) (kw : Z * Z) : regs :=
  let t1 := add32 (add32 (add32 (rh r) (bsig1 (re r))) (Ch (re r) (rf r) (rg r)))
                  (add32 (fst kw) (snd kw)) in
  let t2 := add32 (bsig0 (ra r)) (Maj (ra r) (rb r) (rc r)) in
  Regs (add32 t1 t2) (ra r) (rb r) (rc r) (add32 (rd r) t1) (re r) (rf r) (rg r).

Definition regs_of (h : list Z) : regs :=
  match h with
  | [a; b; c; d; e; f; g; h'] => Regs a b c d e f g h'
  | _ => Regs 0 0 0 0 0 0 0 0
  end.

Definition words_of_regs (r : regs) : list Z :=
  [ra r; rb r; rc r; rd r; re r; rf r; rg r; rh r].

Definition compress (h : list Z) (block : list Z) : list Z :=
  let w := schedule 48 (rev block) in
  let r := fold_left round (combine K w) (regs_of h) in
  map (fun p => add32 (fst p) (snd p)) (combine h (words_of_regs r)).

Fixpoint blocks_of (fuel : nat) (words : list Z) : list (list Z) :=
  match fuel, words with
  | _, [] | O, _ => []
  | S fuel', _ => firstn 16 words :: blocks_of fuel' (skipn 16 words)
  end.

(** The digest of a byte string, as eight words. *)
Definition sha256 (msg : list Z) : list Z :=
  let bytes := pad msg in
  let words := words_of (length bytes) bytes in
  fold_left compress (blocks_of (length words) words) H0.

Definition hex_digit (n : Z) : ascii :=
  match n with
  | 0 => "0" | 1 => "1" | 2 => "2" | 3 => "3" | 4 => "4" | 5 => "5"
  | 6 => "6" | 7 => "7" | 8 => "8" | 9 => "9" | 10 => "a" | 11 => "b"
  | 12 => "c" | 13 => "d" | 14 => "e" | _ => "f"
  end%char.

Definition hex_of_word (w : Z) : list ascii :=
  map (fun i => hex_digit (Z.land (Z.shiftr w (4 * Z.of_nat i)) 0xf)) (rev (seq 0 8)).

(** [.hexdigest()]: sixty-four lowercase hexadecimal characters. *)
Definition hexdigest (digest : list Z) : string :=
  string_of_list_ascii (flat_map hex_of_word digest).

End Sha256.

(** [str.encode()]: the bytes of a string. *)
Definition encode (s : string) : list Z :=
  map (fun c => Z.of_N (N_of_ascii c)) (list_ascii_of_string s).

(** [str(n)] for a Python integer: decimal digits, a leading minus sign
    for negative numbers. *)
Definition str (n : Z) : string := NilZero.string_of_int (Z.to_int n).

(** [hashlib.sha256(bytes).hexdigest()] *)
Definition sha256_hexdigest (bytes : list Z) : string :=
  Sha256.hexdigest (Sha256.sha256 bytes).

(** ** The proof-of-work predicate and search *)

(** [Blockchain.valid_proof] (a static method):
    [guess = f"{last_proof}{proof}".encode()], then the first four
    characters of the hexadecimal digest are compared with ["0000"]. *)
Definition valid_proof (last_proof proof : Z) : bool :=
  let guess := encode (str last_proof ++ str proof)%string in
  let guess_hash := sha256_hexdigest guess in
  String.eqb (substring 0 4 guess_hash) "0000".

(** [Blockchain.proof_of_work]: [proof = 0], then [proof += 1] as long as
    [valid_proof(last_proof, proof) is False].  The source puts no bound on
    the search; [fuel] counts the loop tests still allowed, and [None] is a
    search that has not returned within them. *)
Fixpoint proof_of_work_from (fuel : nat) (last_proof proof : Z) : option Z :=
  match fuel with
  | O => None
  | S fuel' =>
      if valid_proof last_proof proof then Some proof
      else proof_of_work_from fuel' last_proof (proof + 1)
  end.

Definition proof_of_work (fuel : nat) (last_proof : Z) : option Z :=
  proof_of_work_from fuel last_proof 0.

(** ** Python values and exceptions *)

(** The exceptions the modelled lines can raise: an index out of range, a
    name that is not bound, a peer that cannot be reached
    ([requests.exceptions.ConnectionError]). *)
Inductive exn : Type := IndexError | NameError | ConnectionError.

(** What running a piece of code gives: a returned value, a raised
    exception, or a loop still running when the fuel is spent. *)
Inductive outcome (A : Type) : Type :=
| Returns (a : A)
| Raises (e : exn)
| Unfinished.
Arguments Returns {A} a.
Arguments Raises {A} e.
Arguments Unfinished {A}.

(** The values a [previous_hash] takes: [None] (the default of the
    parameter), an integer (the genesis block is created with [1]), a
    string (a digest). *)
Inductive value : Type :=
| VNone
| VInt (n : Z)
| VStr (s : string).

(** Truth value testing: [None], [0] and the empty string are false. *)
Definition truthy (v : value) : bool :=
  match v with
  | VNone => false
  | VInt n => negb (n =? 0)
  | VStr s => negb (String.eqb s "")
  end.

(** [==] on these values; values of different types are unequal. *)
Definition value_eqb (v w : value) : bool :=
  match v, w with
  | VNone, VNone => true
  | VInt n, VInt m => n =? m
  | VStr s, VStr t => String.eqb s t
  | _, _ => false
  end.

(** A float is carried as the text [repr] gives for it: [repr] is
    one-to-one on floats, and the code only stores a timestamp and lets
    [json.dumps] print it. *)
Record pyfloat : Type := Float { repr : string }.

(** ** The data model *)

Record Transaction : Type := mkTransaction {
  sender : string;
  recipient : string;
  amount : Z
}.

Record Block : Type := mkBlock {
  index : Z;
  timestamp : pyfloat;
  transactions : list Transaction;
  proof : Z;
  previous_hash : value
}.

(** The attributes of a [Blockchain] object.  [nodes] is a set; the list
    gives its members in the order a [for] loop visits them. *)
Record Blockchain : Type := mkBlockchain {
  chain : list Block;
  current_transactions : list Transaction;
  nodes : list string
}.

(** ** [json.dumps(block, sort_keys=True)] *)

Module Json.

Definition dquote : string := String "034"%char EmptyString.

Definition hex4 (n : Z) : string :=
  string_of_list_ascii
    (map (fun i => Sha256.hex_digit (Z.land (Z.shiftr n (4 * Z.of_nat i)) 0xf))
         (rev (seq 0 4))).

Definition u_escape (n : Z) : string := ("\u" ++ hex4 n)%string.

(** Code points of a string held as UTF-8 bytes. *)
Fixpoint code_points (bytes : list Z) : list Z :=
  match bytes with
  | [] => []
  | b0 :: rest =>
      if b0 <? 0x80 then b0 :: code_points rest
      else if b0 <? 0xe0 then
        match rest with
        | b1 :: rest1 =>
            Z.lor (Z.shiftl (Z.land b0 0x1f) 6) (Z.land b1 0x3f) :: code_points rest1
        | _ => [b0]
        end
      else if b0 <? 0xf0 then
        match rest with
        | b1 :: b2 :: rest2 =>
            Z.lor (Z.shiftl (Z.land b0 0x0f) 12)
                  (Z.lor (Z.shiftl (Z.land b1 0x3f) 6) (Z.land b2 0x3f))
            :: code_points rest2
        | _ => b0 :: rest
        end
      else
        match rest with
        | b1 :: b2 :: b3 :: rest3 =>
            Z.lor (Z.shiftl (Z.land b0 0x07) 18)
                  (Z.lor (Z.shiftl (Z.land b1 0x3f) 12)
                         (Z.lor (Z.shiftl (Z.land b2 0x3f) 6) (Z.land b3 0x3f)))
            :: code_points rest3
        | _ => b0 :: rest
        end
  end.

(** The default [ensure_ascii] escaping: the short escapes, the
    printable ASCII characters as they are, everything else as one or
    two [\uXXXX]. *)
Definition escape (cp : Z) : string :=
  if cp =? 34 then ("\" ++ dquote)%string
  else if cp =? 92 then "\\"%string
  else if cp =? 10 then "\n"%string
  else if cp =? 13 then "\r"%string
  else if cp =? 9 then "\t"%string
  else if cp =? 8 then "\b"%string
  else if cp =? 12 then "\f"%string
  else if (32 <=? cp) && (cp <=? 126) then
    String (ascii_of_N (Z.to_N cp)) EmptyString
  else if cp <? 0x10000 then u_escape cp
  else
    let n := cp - 0x10000 in
    (u_escape (Z.lor 0xd800 (Z.land (Z.shiftr n 10) 0x3ff))
     ++ u_escape (Z.lor 0xdc00 (Z.land n 0x3ff)))%string.

Definition of_string (s : string) : string :=
  (dquote ++ String.concat "" (map escape (code_points (encode s))) ++ dquote)%string.

Definition key (name : string) : string := (dquote ++ name ++ dquote ++ ": ")%string.

Definition of_value (v : value) : string :=
  match v with
  | VNone => "null"%string
  | VInt n => str n
  | VStr s => of_string s
  end.

Definition of_transaction (t : Transaction) : string :=
  ("{" ++ key "amount" ++ str (amount t)
       ++ ", " ++ key "recipient" ++ of_string (recipient t)
       ++ ", " ++ key "sender" ++ of_string (sender t) ++ "}")%string.

Definition of_list (items : list string) : string :=
  ("[" ++ String.concat ", " items ++ "]")%string.

(** Keys in sorted order: index, previous_hash, proof, timestamp,
    transactions. *)
Definition dumps (b : Block) : string :=
  ("{" ++ key "index" ++ str (index b)
       ++ ", " ++ key "previous_hash" ++ of_value (previous_hash b)
       ++ ", " ++ key "proof" ++ str (proof b)
       ++ ", " ++ key "timestamp" ++ repr (timestamp b)
       ++ ", " ++ key "transactions" ++ of_list (map of_transaction (transactions b))
       ++ "}")%string.

End Json.

(** [Blockchain.hash] (a static method): the SHA-256 digest, in
    hexadecimal, of the block printed with sorted keys. *)
Definition hash (block : Block) : string :=
  let block_string := encode (Json.dumps block) in
  sha256_hexdigest block_string.

Arguments valid_proof : simpl never.
Arguments hash : simpl never.

(** ** The ledger operations *)

(** [chain[-1]]: the last item, [IndexError] on an empty list. *)
Definition item_last {A : Type} (l : list A) : outcome A :=
  match rev l with
  | x :: _ => Returns x
  | [] => Raises IndexError
  end.

(** [chain[i]] for [0 <= i]: the item at [i], [IndexError] past the end. *)
Definition item_at {A : Type} (l : list A) (i : Z) : outcome A :=
  match nth_error l (Z.to_nat i) with
  | Some x => Returns x
  | None => Raises IndexError
  end.

(** [len(l)] *)
Definition len {A : Type} (l : list A) : Z := Z.of_nat (length l).

(** The [last_block] property. *)
Definition last_block (self : Blockchain) : outcome Block := item_last (chain self).

(** [Blockchain.new_block].  [now] is what [time()] gives at the call.
    The dictionary display evaluates its values in order, the last one
    being [previous_hash or self.hash(self.chain[-1])]: the right operand
    is evaluated only if the left one is false, and nothing has been
    assigned yet if it raises.  Gives the returned block and the object
    after the call. *)
Definition new_block (now : pyfloat) (proof : Z) (previous_hash : value)
    (self : Blockchain) : outcome Block * Blockchain :=
  let link :=
    if truthy previous_hash then Returns previous_hash
    else match item_last (chain self) with
         | Returns last => Returns (VStr (hash last))
         | Raises e => Raises e
         | Unfinished => Unfinished
         end in
  match link with
  | Returns link =>
      let block := mkBlock (len (chain self) + 1) now (current_transactions self)
                           proof link in
      (Returns block, mkBlockchain (chain self ++ [block]) [] (nodes self))
  | Raises e => (Raises e, self)
  | Unfinished => (Unfinished, self)
  end.

(** [Blockchain.new_transaction]: the transaction is appended first, then
    [self.last_block['index'] + 1] is computed. *)
Definition new_transaction (sender recipient : string) (amount : Z)
    (self : Blockchain) : outcome Z * Blockchain :=
  let self' :=
    mkBlockchain (chain self)
                 (current_transactions self ++ [mkTransaction sender recipient amount])
                 (nodes self) in
  match last_block self' with
  | Returns last => (Returns (index last + 1), self')
  | Raises e => (Raises e, self')
  | Unfinished => (Unfinished, self')
  end.

(** [Blockchain.__init__]: two empty lists, the genesis block through
    [new_block(previous_hash=1, proof=100)], an empty set of nodes. *)
Definition __init__ (now : pyfloat) : outcome Blockchain :=
  let self := mkBlockchain [] [] [] in
  match new_block now 100 (VInt 1) self with
  | (Returns _, self') =>
      Returns (mkBlockchain (chain self') (current_transactions self') [])
  | (Raises e, _) => Raises e
  | (Unfinished, _) => Unfinished
  end.

(** Submitting a sequence of transactions, one [new_transaction] call
    each, in order; stops at the first call that raises. *)
Fixpoint submit_all (txs : list Transaction) (self : Blockchain)
    : outcome unit * Blockchain :=
  match txs with
  | [] => (Returns tt, self)
  | t :: rest =>
      match new_transaction (sender t) (recipient t) (amount t) self with
      | (Returns _, self') => submit_all rest self'
      | (Raises e, self') => (Raises e, self')
      | (Unfinished, self') => (Unfinished, self')
      end
  end.

(** One call of an operation that appends to the ledger. *)
Inductive step : Blockchain -> Blockchain -> Prop :=
| step_new_transaction s r a self n self' :
    new_transaction s r a self = (Returns n, self') -> step self self'
| step_new_block now p ph self b self' :
    new_block now p ph self = (Returns b, self') -> step self self'.

(** The ledgers that [__init__] followed by any number of such calls
    gives. *)
Inductive reachable : Blockchain -> Prop :=
| reachable_init now self : __init__ now = Returns self -> reachable self
| reachable_step self self' : reachable self -> step self self' -> reachable self'.

(** ** The chain scan *)

Section ValidChain.

(** What the name [self_hash] on line 36 resolves to when the line runs:
    [None] if the name is bound nowhere, the function it names
    otherwise. *)
Variable self_hash : option (Block -> string).

Definition call_self_hash (block : Block) : outcome value :=
  match self_hash with
  | Some f => Returns (VStr (f block))
  | None => Raises NameError
  end.

(** The [while] loop of [valid_chain].  Its test is
    [current_index := 1 < len(chain)]: the assignment expression binds
    [current_index] to the value of the comparison, a [bool], each time
    the test runs, and [chain[current_index]] then indexes with it
    ([True] is 1).  The [current_index += 1] that ends the body is
    overwritten by the next test. *)
Fixpoint valid_chain_loop (fuel : nat) (chain : list Block) (last_block : Block)
    : outcome bool :=
  match fuel with
  | O => Unfinished
  | S fuel' =>
      let current_index := 1 <? len chain in
      if current_index then
        match item_at chain (Z.b2z current_index) with
        | Returns block =>
            match call_self_hash last_block with
            | Returns h =>
                if negb (value_eqb (previous_hash block) h) then Returns false
                else if negb (valid_proof (proof last_block) (proof block))
                then Returns false
                else valid_chain_loop fuel' chain block
            | Raises e => Raises e
            | Unfinished => Unfinished
            end
        | Raises e => Raises e
        | Unfinished => Unfinished
        end
      else Returns true
  end.

Definition valid_chain_with (fuel : nat) (chain : list Block) : outcome bool :=
  match item_at chain 0 with
  | Returns last_block => valid_chain_loop fuel chain last_block
  | Raises e => Raises e
  | Unfinished => Unfinished
  end.

End ValidChain.

(** [Blockchain.valid_chain] as the module has it: no assignment,
    definition or import binds [self_hash], and it is not a builtin. *)
Definition valid_chain (fuel : nat) (chain : list Block) : outcome bool :=
  valid_chain_with None fuel chain.

(** The scan with [self_hash] read as the method [self.hash]. *)
Definition valid_chain_self_dot_hash (fuel : nat) (chain : list Block) : outcome bool :=
  valid_chain_with (Some hash) fuel chain.

(** The validity of a chain in the words of the specification: every
    adjacent pair has (a) the later block's [previous_hash] equal to the
    digest of the earlier block and (b) the two proofs accepted by
    [valid_proof]. *)
Definition pair_linked (earlier later : Block) : bool :=
  value_eqb (previous_hash later) (VStr (hash earlier))
  && valid_proof (proof earlier) (proof later).

Fixpoint every_adjacent_pair_linked (chain : list Block) : bool :=
  match chain with
  | earlier :: (later :: _) as rest =>
      pair_linked earlier later && every_adjacent_pair_linked rest
  | _ => true
  end.

(** ** Consensus *)

(** The part of a peer's answer that the code reads: the status and the
    two entries of the JSON document. *)
Record Response : Type := mkResponse {
  status_code : Z;
  json_length : Z;
  json_chain : list Block
}.

(** [f'http://{node}/chain'] *)
Definition url_of (node : string) : string := ("http://" ++ node ++ "/chain")%string.
Arguments url_of : simpl never.

Section Resolve.

(** [requests.get]: an answer, or the exception raised when the peer
    cannot be reached. *)
Variable requests_get : string -> outcome Response.

(** The validator called on line 61. *)
Variable validate : list Block -> outcome bool.

(** The [for] loop of [resolve_conflicts], with the two variables it
    updates. *)
Fixpoint resolve_loop (neighbours : list string)
    (new_chain : option (list Block)) (max_length : Z)
    : outcome (option (list Block) * Z) :=
  match neighbours with
  | [] => Returns (new_chain, max_length)
  | node :: rest =>
      match requests_get (url_of node) with
      | Returns response =>
          if status_code response =? 200 then
            let length := json_length response in
            let chain := json_chain response in
            if length >? max_length then
              match validate chain with
              | Returns true => resolve_loop rest (Some chain) length
              | Returns false => resolve_loop rest new_chain max_length
              | Raises e => Raises e
              | Unfinished => Unfinished
              end
            else resolve_loop rest new_chain max_length
          else resolve_loop rest new_chain max_length
      | Raises e => Raises e
      | Unfinished => Unfinished
      end
  end.

(** [if new_chain:] is false for [None] and for an empty list. *)
Definition resolve_conflicts_with (self : Blockchain) : outcome bool * Blockchain :=
  match resolve_loop (nodes self) None (len (chain self)) with
  | Returns (Some (b :: bs), _) =>
      (Returns true, mkBlockchain (b :: bs) (current_transactions self) (nodes self))
  | Returns (_, _) => (Returns false, self)
  | Raises e => (Raises e, self)
  | Unfinished => (Unfinished, self)
  end.

End Resolve.

(** [Blockchain.resolve_conflicts] *)
Definition resolve_conflicts (fuel : nat) (requests_get : string -> outcome Response)
    (self : Blockchain) : outcome bool * Blockchain :=
  resolve_conflicts_with requests_get (valid_chain fuel) self.

(** The same with [self_hash] read as [self.hash] in the validator. *)
Definition resolve_conflicts_self_dot_hash (fuel : nat)
    (requests_get : string -> outcome Response) (self : Blockchain)
    : outcome bool * Blockchain :=
  resolve_conflicts_with requests_get (valid_chain_self_dot_hash fuel) self.

(** ** Sample ledgers *)

(** The genesis block of a ledger created at time [t0]. *)
Definition genesis_block (t0 : pyfloat) : Block := mkBlock 1 t0 [] 100 (VInt 1).

(** The block that [new_block(35293)] appends to a fresh ledger at [t1];
    35293 is what the search gives for the genesis proof 100. *)
Definition second_block (t0 t1 : pyfloat) : Block :=
  mkBlock 2 t1 [] 35293 (VStr (hash (genesis_block t0))).

Definition sealed_once (t0 t1 : pyfloat) : list Block :=
  [genesis_block t0; second_block t0 t1].

(** A fresh ledger that knows the given peers. *)
Definition fresh_node (t0 : pyfloat) (peers : list string) : Blockchain :=
  mkBlockchain [genesis_block t0] [] peers.

(** A peer serving the chain [sealed_once], a peer answering with a server
    error, and the network in which ["dead:5000"] cannot be reached. *)
Definition serves (chain : list Block) : Response :=
  mkResponse 200 (len chain) chain.

Definition server_error : Response := mkResponse 500 0 [].

Definition sample_network (t0 t1 : pyfloat) (url : string) : outcome Response :=
  if String.eqb url "http://dead:5000/chain" then Raises ConnectionError
  else if String.eqb url "http://down:5000/chain" then Returns server_error
  else Returns (serves (sealed_once t0 t1)).

Definition noon : pyfloat := Float "1700000000.25".
Definition minute_later : pyfloat := Float "1700000060.5".

(** A fresh ledger on which one transaction has been submitted, and three
    transactions to submit. *)
Definition one_pending : Blockchain :=
  mkBlockchain [genesis_block noon] [mkTransaction "A" "B" 10] [].

Definition three_transactions : list Transaction :=
  [mkTransaction "A" "B" 10; mkTransaction "B" "C" 4; mkTransaction "0" "A" 1].

(** ** The routes of [FrontEndFlaskApp] *)

(** The answer of the [/mine] route: the entries of the JSON document. *)
Record Forged : Type := mkForged {
  forged_message : string;
  forged_index : Z;
  forged_transactions : list Transaction;
  forged_proof : Z;
  forged_previous_hash : value
}.

(** The route [mine]: the last block is read, the proof searched from its
    proof, the reward transaction (sender ["0"], amount 1) submitted, and
    the block sealed with the digest of the block read at the start.
    [node_identifier] is the attribute of the application object, [now]
    the clock read inside [new_block].  Gives the answer with its status
    and the ledger after the request. *)
Definition mine (fuel : nat) (now : pyfloat) (node_identifier : string)
    (blockchain : Blockchain) : outcome (Forged * Z) * Blockchain :=
  match last_block blockchain with
  | Returns last =>
      let last_proof := proof last in
      match proof_of_work fuel last_proof with
      | Some found =>
          match new_transaction "0" node_identifier 1 blockchain with
          | (Returns _, pending) =>
              let link := VStr (hash last) in
              match new_block now found link pending with
              | (Returns block, sealed) =>
                  (Returns (mkForged "New Block Forged" (index block)
                              (transactions block) (proof block)
                              (previous_hash block), 200),
                   sealed)
              | (Raises e, after) => (Raises e, after)
              | (Unfinished, after) => (Unfinished, after)
              end
          | (Raises e, after) => (Raises e, after)
          | (Unfinished, after) => (Unfinished, after)
          end
      | None => (Unfinished, blockchain)
      end
  | Raises e => (Raises e, blockchain)
  | Unfinished => (Unfinished, blockchain)
  end.

(** The route [full_chain], as the peer that fetches it reads the answer:
    status 200, the chain and its length. *)
Definition full_chain (blockchain : Blockchain) : Response :=
  mkResponse 200 (len (chain blockchain)) (chain blockchain).

(** The JSON object posted to [/transactions/new], as far as the route
    reads it: for each of the three required keys, the value if the key is
    there (of the type the docstring of [new_transaction] gives). *)
Record TransactionForm : Type := mkForm {
  form_sender : option string;
  form_recipient : option string;
  form_amount : option Z
}.

(** The route [new_transaction]: ['Missing values', 400] unless all three
    keys are there, otherwise the transaction is submitted and the answer
    names the block index returned, with status 201. *)
Definition new_transaction_route (values : TransactionForm) (blockchain : Blockchain)
    : outcome (string * Z) * Blockchain :=
  match form_sender values, form_recipient values, form_amount values with
  | Some s, Some r, Some a =>
      match new_transaction s r a blockchain with
      | (Returns index, after) =>
          (Returns (("Transaction will be added to Block " ++ str index)%string, 201),
           after)
      | (Raises e, after) => (Raises e, after)
      | (Unfinished, after) => (Unfinished, after)
      end
  | _, _, _ => (Returns ("Missing values"%string, 400), blockchain)
  end.

(** Any number of returning [new_transaction] and [new_block] calls. *)
Inductive steps : Blockchain -> Blockchain -> Prop :=
| steps_none self : steps self self
| steps_more self middle self' : steps self middle -> step middle self' -> steps self self'.

(** The ledgers a node gets to through its routes alone: created, then
    any number of posted transactions and mined blocks. *)
Inductive served : Blockchain -> Prop :=
| served_init now self : __init__ now = Returns self -> served self
| served_transaction values self answer self' :
    served self ->
    new_transaction_route values self = (Returns answer, self') ->
    served self'
| served_mine fuel now node_identifier self answer self' :
    served self ->
    mine fuel now node_identifier self = (Returns answer, self') ->
    served self'.

(** A ledger whose only block has proof 2699, for which the search ends
    at 26, and an arbitrary block. *)
Definition short_search : Blockchain :=
  mkBlockchain [mkBlock 1 noon [] 2699 (VInt 1)] [mkTransaction "A" "B" 10] [].

Definition stray_block : Block := mkBlock 7 minute_later [] 0 VNone.

(** A network of three peers: ["peer0:5000"] answers with a server
    error, the two others each send a chain of one block with the
    reported length 3. *)
Definition three_peers (url : string) : outcome Response :=
  if String.eqb url "http://peer0:5000/chain" then Returns server_error
  else if String.eqb url "http://peer1:5000/chain"
       then Returns (mkResponse 200 3 [genesis_block noon])
       else Returns (mkResponse 200 3 [stray_block]).

(** The characters of a lowercase hexadecimal numeral. *)
Definition lower_hex (c : ascii) : bool :=
  existsb (Ascii.eqb c) (list_ascii_of_string "0123456789abcdef").

(** * Properties *)

(** ** The hash functions against reference values *)

Example sha256_first_round_constant : nth 0 Sha256.K 0 = 0x428a2f98.
Proof. reflexivity. Qed.

Example sha256_last_round_constant : nth 63 Sha256.K 0 = 0xc67178f2.
Proof. reflexivity. Qed.

Example sha256_initial_hash_ends :
  nth 0 Sha256.H0 0 = 0x6a09e667 /\ nth 7 Sha256.H0 0 = 0x5be0cd19.
Proof. split; reflexivity. Qed.

Example sha256_of_empty :
  sha256_hexdigest (encode "") =
  "e3b0c44298fc1c149afbf4c8996fb92427ae41e4649b934ca495991b7852b855"%string.
Proof. vm_compute. reflexivity. Qed.

Example sha256_of_abc :
  sha256_hexdigest (encode "abc") =
  "ba7816bf8f01cfea414140de5dae2223b00361a396177a9cb410ff61f20015ad"%string.
Proof. vm_compute. reflexivity. Qed.

Example sha256_two_blocks :
  sha256_hexdigest (encode "abcdbcdecdefdefgefghfghighijhijkijkljklmklmnlmnomnopnopq") =
  "248d6a61d20638b8e5c026930c3e6039a33ce45964ff2167f6ecedd419db06c1"%string.
Proof. vm_compute. reflexivity. Qed.

Example str_examples :
  str 0 = "0"%string /\ str 35293 = "35293"%string /\
  str (-5) = "-5"%string /\ str 100 = "100"%string.
Proof. repeat split; reflexivity. Qed.

(** The digests [Blockchain.hash] gives for a genesis block and for a
    block with transactions whose strings need every kind of escape. *)
Example hash_of_genesis :
  hash (genesis_block noon) =
  "0d2420841168978413448be62e8f44a6c32c168768f1cee2f0cb7ea2a7720ba0"%string.
Proof. vm_compute. reflexivity. Qed.

Example hash_with_escapes :
  let odd := string_of_list_ascii
               (map ascii_of_nat [110; 195; 169; 34; 120; 92; 10; 127; 240; 159; 152; 128]%nat) in
  hash (mkBlock 2 minute_later
          [mkTransaction "0" odd 1; mkTransaction "A" "B" (-10)]
          35293 (VStr (hash (genesis_block noon)))) =
  "cf033c1bafc25ba09c79da92f42353c00c2460ca0aec78ffb90e5adf08b78498"%string.
Proof. vm_compute. reflexivity. Qed.

(** A digest is never the empty string: it has eight words, eight
    characters each. *)
Lemma compress_length h block : length (Sha256.compress h block) = Nat.min (length h) 8.
Proof.
  unfold Sha256.compress.
  rewrite length_map, length_combine. reflexivity.
Qed.

Lemma sha256_length msg : length (Sha256.sha256 msg) = 8%nat.
Proof.
  unfold Sha256.sha256.
  generalize (Sha256.blocks_of
                (length (Sha256.words_of (length (Sha256.pad msg)) (Sha256.pad msg)))
                (Sha256.words_of (length (Sha256.pad msg)) (Sha256.pad msg))).
  intro blocks.
  assert (H : length Sha256.H0 = 8%nat) by reflexivity.
  revert H. generalize Sha256.H0.
  induction blocks as [|b blocks IH]; intros h Hh; simpl.
  - exact Hh.
  - apply IH. rewrite compress_length, Hh. reflexivity.
Qed.

Lemma sha256_hexdigest_nonempty bytes : sha256_hexdigest bytes <> ""%string.
Proof.
  unfold sha256_hexdigest, Sha256.hexdigest.
  pose proof (sha256_length bytes) as H.
  destruct (Sha256.sha256 bytes) as [|w ws]; [discriminate|].
  change (flat_map Sha256.hex_of_word (w :: ws))
    with (Sha256.hex_of_word w ++ flat_map Sha256.hex_of_word ws).
  unfold Sha256.hex_of_word.
  change (rev (seq 0 8)) with [7; 6; 5; 4; 3; 2; 1; 0]%nat.
  cbn [map app string_of_list_ascii]. discriminate.
Qed.

Lemma hash_truthy block : truthy (VStr (hash block)) = true.
Proof.
  unfold truthy. destruct (String.eqb_spec (hash block) "") as [E|_]; [|reflexivity].
  exfalso. revert E. apply sha256_hexdigest_nonempty.
Qed.

Lemma value_eqb_refl v : value_eqb v v = true.
Proof.
  destruct v; simpl; [reflexivity | apply Z.eqb_refl | apply String.eqb_refl].
Qed.

Lemma value_eqb_eq v w : value_eqb v w = true <-> v = w.
Proof.
  split.
  - destruct v, w; simpl; try discriminate; intro H.
    + reflexivity.
    + apply Z.eqb_eq in H. congruence.
    + apply String.eqb_eq in H. congruence.
  - intros ->. apply value_eqb_refl.
Qed.

(** ** [valid_proof] *)

(** What the slice-and-compare of [valid_proof] tests on any string. *)
Lemma first_four_zero (s : string) :
  String.eqb (substring 0 4 s) "0000" = true <->
  forall i, (i < 4)%nat -> String.get i s = Some "0"%char.
Proof.
  split.
  - intros H i Hi. apply String.eqb_eq in H.
    destruct s as [|c0 [|c1 [|c2 [|c3 s]]]]; simpl in H; try discriminate.
    injection H as E0 E1 E2 E3 _. subst.
    destruct i as [|[|[|[|i]]]]; try reflexivity; lia.
  - intro H. apply String.eqb_eq.
    pose proof (H 0%nat ltac:(lia)) as H0.
    pose proof (H 1%nat ltac:(lia)) as H1.
    pose proof (H 2%nat ltac:(lia)) as H2.
    pose proof (H 3%nat ltac:(lia)) as H3.
    destruct s as [|c0 [|c1 [|c2 [|c3 s]]]]; simpl in *; try discriminate.
    injection H0 as ->. injection H1 as ->. injection H2 as ->. injection H3 as ->.
    destruct s; reflexivity.
Qed.

(** C5. For all integers [last_proof] and [proof], [valid_proof] returns
    true if and only if the SHA-256 hexadecimal digest of the decimal form
    of [last_proof] followed by the decimal form of [proof] has the
    character '0' at each of its first four positions (difficulty 4). *)
Theorem valid_proof_iff_four_leading_zeros (last_proof proof : Z) :
  valid_proof last_proof proof = true <->
  forall i, (i < 4)%nat ->
    String.get i (sha256_hexdigest (encode (str last_proof ++ str proof)%string))
    = Some "0"%char.
Proof.
  unfold valid_proof. apply first_four_zero.
Qed.

(** The genesis proof 100 and the proof 35293 of the first sealed block. *)
Example valid_proof_100_35293 : valid_proof 100 35293 = true.
Proof. vm_compute. reflexivity. Qed.

Example digest_100_35293 :
  sha256_hexdigest (encode (str 100 ++ str 35293)%string) =
  "0000c415de5ceea33c02daa85a1c218ecca1b1c9e9864ed34d183597844de8e2"%string.
Proof. vm_compute. reflexivity. Qed.

(** The test reads four characters and no more: a digest that goes on
    with a fifth zero is accepted as well. *)
Example valid_proof_five_zeros :
  valid_proof 204 1213 = true /\
  substring 0 6 (sha256_hexdigest (encode (str 204 ++ str 1213)%string)) = "000001"%string.
Proof. split; vm_compute; reflexivity. Qed.

Example valid_proof_negative : valid_proof (-5) 3 = false.
Proof. vm_compute. reflexivity. Qed.

(** ** [proof_of_work] *)

(** A search that returns gives a valid proof with no valid proof between
    its starting point and the result. *)
Lemma proof_of_work_from_sound fuel last_proof :
  forall start q,
    proof_of_work_from fuel last_proof start = Some q ->
    start <= q /\ valid_proof last_proof q = true /\
    forall r, start <= r < q -> valid_proof last_proof r = false.
Proof.
  induction fuel as [|fuel IH]; intros start q H; simpl in H; [discriminate|].
  destruct (valid_proof last_proof start) eqn:V.
  - injection H as <-. repeat split; [lia | exact V | intros r Hr; lia].
  - destruct (IH _ _ H) as (Hle & Hq & Hmin).
    repeat split; [lia | exact Hq |].
    intros r Hr. destruct (Z.eq_dec r start) as [->|Hne]; [exact V|].
    apply Hmin. lia.
Qed.

(** More fuel does not change a result. *)
Lemma proof_of_work_from_more_fuel fuel last_proof :
  forall start q fuel',
    proof_of_work_from fuel last_proof start = Some q ->
    (fuel <= fuel')%nat ->
    proof_of_work_from fuel' last_proof start = Some q.
Proof.
  induction fuel as [|fuel IH]; intros start q fuel' H Hle; simpl in H; [discriminate|].
  destruct fuel' as [|fuel']; [lia|]. simpl.
  destruct (valid_proof last_proof start); [exact H|].
  apply IH; [exact H | lia].
Qed.

(** If a valid proof lies at or after the starting point, the search
    returns once the fuel covers the distance to it. *)
Lemma proof_of_work_from_finds last_proof p :
  valid_proof last_proof p = true ->
  forall fuel start,
    start <= p -> (Z.to_nat (p - start) < fuel)%nat ->
    exists q, proof_of_work_from fuel last_proof start = Some q.
Proof.
  intros Hp. induction fuel as [|fuel IH]; intros start Hle Hfuel; [lia|].
  simpl. destruct (valid_proof last_proof start) eqn:V.
  - exists start. reflexivity.
  - assert (start <> p) by (intros ->; congruence).
    apply IH; lia.
Qed.

(** C4. For every integer [last_proof] for which a valid proof exists
    among the non-negative integers, [proof_of_work] returns, given fuel
    enough for the search, the smallest non-negative [proof] with
    [valid_proof last_proof proof]; in particular the result is valid. *)
Theorem proof_of_work_smallest (last_proof : Z) :
  (exists p, 0 <= p /\ valid_proof last_proof p = true) ->
  exists q fuel0,
    (forall fuel, (fuel0 <= fuel)%nat -> proof_of_work fuel last_proof = Some q) /\
    0 <= q /\
    valid_proof last_proof q = true /\
    (forall r, 0 <= r < q -> valid_proof last_proof r = false).
Proof.
  intros (p & Hp0 & Hp).
  destruct (proof_of_work_from_finds last_proof p Hp (S (Z.to_nat p)) 0) as (q & Hq);
    [lia | rewrite Z.sub_0_r; lia |].
  exists q, (S (Z.to_nat p)). split.
  - intros fuel Hfuel. unfold proof_of_work.
    eapply proof_of_work_from_more_fuel; [exact Hq | exact Hfuel].
  - apply proof_of_work_from_sound in Hq. exact Hq.
Qed.

Lemma proof_of_work_smallest_witness :
  exists q fuel0,
    (forall fuel, (fuel0 <= fuel)%nat -> proof_of_work fuel 2699 = Some q) /\
    0 <= q /\
    valid_proof 2699 q = true /\
    (forall r, 0 <= r < q -> valid_proof 2699 r = false).
Proof.
  apply (proof_of_work_smallest 2699).
  exists 26. split; [lia | vm_compute; reflexivity].
Defined.

(** Whatever the fuel, a returned proof is the smallest valid one. *)
Lemma proof_of_work_returns_smallest fuel last_proof q :
  proof_of_work fuel last_proof = Some q ->
  0 <= q /\ valid_proof last_proof q = true /\
  forall r, 0 <= r < q -> valid_proof last_proof r = false.
Proof. apply proof_of_work_from_sound. Qed.

Example proof_of_work_2699 : proof_of_work 27 2699 = Some 26.
Proof. vm_compute. reflexivity. Qed.

(** ** The ledger *)

(** C6. A freshly constructed ledger has a chain of exactly one block,
    the genesis block, with index 1, no transactions and proof 100 (and
    the integer 1 as its previous hash); the pool of pending transactions
    is empty. *)
Theorem init_has_genesis_only (now : pyfloat) :
  exists self g,
    __init__ now = Returns self /\
    chain self = [g] /\
    index g = 1 /\ transactions g = [] /\ proof g = 100 /\
    previous_hash g = VInt 1 /\ timestamp g = now /\
    current_transactions self = [].
Proof.
  exists (mkBlockchain [genesis_block now] [] []), (genesis_block now).
  repeat split.
Qed.

Lemma init_fresh_node now : __init__ now = Returns (fresh_node now []).
Proof. reflexivity. Qed.

Lemma item_last_app {A} (l : list A) (x : A) : item_last (l ++ [x]) = Returns x.
Proof. unfold item_last. rewrite rev_app_distr. reflexivity. Qed.

Lemma item_last_nonempty {A} (l : list A) :
  l <> [] -> exists x, item_last l = Returns x.
Proof.
  intro H. destruct (exists_last H) as (l' & x & ->).
  exists x. apply item_last_app.
Qed.

(** On a ledger with a block, [new_transaction] returns and only appends
    to the pool. *)
Lemma new_transaction_returns s r a self :
  chain self <> [] ->
  exists n,
    new_transaction s r a self =
    (Returns n, mkBlockchain (chain self)
                  (current_transactions self ++ [mkTransaction s r a]) (nodes self)).
Proof.
  intro H. destruct (item_last_nonempty _ H) as (b & Hb).
  exists (index b + 1). unfold new_transaction, last_block. simpl. rewrite Hb.
  reflexivity.
Qed.

(** On a ledger with a block, [new_block] returns. *)
Lemma new_block_returns now p ph self :
  chain self <> [] ->
  exists link,
    new_block now p ph self =
    (Returns (mkBlock (len (chain self) + 1) now (current_transactions self) p link),
     mkBlockchain
       (chain self ++ [mkBlock (len (chain self) + 1) now (current_transactions self) p link])
       [] (nodes self)).
Proof.
  intro H. destruct (item_last_nonempty _ H) as (b & Hb).
  unfold new_block. rewrite Hb.
  destruct (truthy ph); eexists; reflexivity.
Qed.

Lemma submit_all_returns txs :
  forall self,
    chain self <> [] ->
    submit_all txs self =
    (Returns tt, mkBlockchain (chain self) (current_transactions self ++ txs) (nodes self)).
Proof.
  induction txs as [|t txs IH]; intros self H; simpl.
  - rewrite app_nil_r. destruct self; reflexivity.
  - destruct (new_transaction_returns (sender t) (recipient t) (amount t) self H)
      as (n & ->).
    rewrite IH by exact H. simpl. rewrite <- app_assoc.
    destruct t; reflexivity.
Qed.

(** Sealing a fresh ledger with proof 35293 gives the chain [sealed_once]. *)
Lemma new_block_on_fresh_node t0 t1 peers :
  new_block t1 35293 VNone (fresh_node t0 peers) =
  (Returns (second_block t0 t1), mkBlockchain (sealed_once t0 t1) [] peers).
Proof. reflexivity. Qed.

Lemma reachable_one_pending : reachable one_pending.
Proof.
  apply reachable_step with (self := fresh_node noon []).
  - apply reachable_init with (now := noon). reflexivity.
  - apply step_new_transaction with (s := "A"%string) (r := "B"%string) (a := 10) (n := 2).
    reflexivity.
Qed.

Lemma reachable_sealed_once t0 t1 : reachable (mkBlockchain (sealed_once t0 t1) [] []).
Proof.
  apply reachable_step with (self := fresh_node t0 []).
  - apply reachable_init with (now := t0). reflexivity.
  - apply step_new_block with (now := t1) (p := 35293) (ph := VNone)
                              (b := second_block t0 t1).
    apply new_block_on_fresh_node.
Qed.

(** Whenever [new_block] returns, the pool is empty afterwards. *)
Lemma new_block_clears_pool now p ph self b self' :
  new_block now p ph self = (Returns b, self') -> current_transactions self' = [].
Proof.
  unfold new_block.
  destruct (truthy ph).
  - intro H. injection H as _ <-. reflexivity.
  - destruct (item_last (chain self)); intro H; try discriminate.
    injection H as _ <-. reflexivity.
Qed.

(** The statement of C7 fails on a ledger that already holds a pending
    transaction: the sealed block carries that transaction too, ahead of
    the one submitted. *)
Lemma sealing_commits_earlier_pending :
  reachable one_pending /\
  exists s1 b s2,
    submit_all [mkTransaction "C" "D" 5] one_pending = (Returns tt, s1) /\
    new_block minute_later 35293 VNone s1 = (Returns b, s2) /\
    transactions b = [mkTransaction "A" "B" 10; mkTransaction "C" "D" 5] /\
    transactions b <> [mkTransaction "C" "D" 5].
Proof.
  split; [exact reachable_one_pending|].
  exists (mkBlockchain [genesis_block noon]
            [mkTransaction "A" "B" 10; mkTransaction "C" "D" 5] []).
  exists (mkBlock 2 minute_later [mkTransaction "A" "B" 10; mkTransaction "C" "D" 5]
            35293 (VStr (hash (genesis_block noon)))).
  eexists. split; [reflexivity|]. split; [reflexivity|].
  split; [reflexivity | discriminate].
Qed.

(** C7, amended. On every ledger with a block, submitting a sequence of
    transactions and then sealing returns a block whose transactions are
    those pending before, followed by the submitted ones in submission
    order -- exactly the submitted ones if the pool was empty before --
    and leaves the pool empty, the block being appended to the chain. *)
Theorem sealing_drains_pool (self : Blockchain) (txs : list Transaction)
    (now : pyfloat) (p : Z) (ph : value) :
  chain self <> [] ->
  exists s1 b s2,
    submit_all txs self = (Returns tt, s1) /\
    new_block now p ph s1 = (Returns b, s2) /\
    transactions b = current_transactions self ++ txs /\
    (current_transactions self = [] -> transactions b = txs) /\
    current_transactions s2 = [] /\
    chain s2 = chain self ++ [b].
Proof.
  intro H.
  rewrite (submit_all_returns txs self H).
  set (s1 := mkBlockchain (chain self) (current_transactions self ++ txs) (nodes self)).
  destruct (new_block_returns now p ph s1 H) as (link & E).
  eexists. eexists. eexists.
  split; [reflexivity|]. split; [exact E|].
  simpl. repeat split.
  intros ->. reflexivity.
Qed.

Lemma sealing_drains_pool_witness :
  exists s1 b s2,
    submit_all three_transactions (fresh_node noon []) = (Returns tt, s1) /\
    new_block minute_later 35293 VNone s1 = (Returns b, s2) /\
    transactions b = current_transactions (fresh_node noon []) ++ three_transactions /\
    (current_transactions (fresh_node noon []) = [] -> transactions b = three_transactions) /\
    current_transactions s2 = [] /\
    chain s2 = chain (fresh_node noon []) ++ [b].
Proof.
  apply (sealing_drains_pool (fresh_node noon []) three_transactions minute_later
           35293 VNone).
  simpl. discriminate.
Defined.

(** The scenario of the specification: three submissions from a fresh
    ledger, then a seal. *)
Example three_submitted_then_sealed :
  exists s1 b s2,
    submit_all three_transactions (fresh_node noon []) = (Returns tt, s1) /\
    new_block minute_later 35293 VNone s1 = (Returns b, s2) /\
    transactions b = three_transactions /\
    current_transactions s2 = [] /\
    index b = 2 /\
    previous_hash b = VStr (hash (genesis_block noon)).
Proof.
  do 3 eexists. repeat split.
Qed.

(** ** The index invariant *)

Lemma step_chain self self' :
  step self self' ->
  chain self' = chain self \/
  exists b, chain self' = chain self ++ [b] /\ index b = len (chain self) + 1.
Proof.
  intros [s r a self0 n self1 H | now p ph self0 b self1 H].
  - left. unfold new_transaction in H.
    destruct (last_block _); injection H as _ <-; reflexivity.
  - right. unfold new_block in H.
    destruct (truthy ph).
    + injection H as _ <-. eexists. split; reflexivity.
    + destruct (item_last (chain self0)); try discriminate.
      injection H as _ <-. eexists. split; reflexivity.
Qed.

(** A reachable ledger has a block: the genesis block is there from the
    start and no step removes a block. *)
Lemma reachable_chain_nonempty (self : Blockchain) :
  reachable self -> chain self <> [].
Proof.
  induction 1 as [now self Hinit | self self' Hreach IH Hstep].
  - rewrite init_fresh_node in Hinit. injection Hinit as <-. discriminate.
  - destruct (step_chain _ _ Hstep) as [-> | (blk & -> & _)]; [exact IH|].
    intro E. apply app_eq_nil in E. destruct E as [_ E]. discriminate.
Qed.

(** C8. In every ledger reachable from a freshly constructed one by
    [new_transaction] and [new_block] calls, the chain is non-empty and
    the block at each position [i] (from 0) has index [i + 1]. *)
Theorem reachable_index_is_position (self : Blockchain) :
  reachable self ->
  chain self <> [] /\
  forall i b, nth_error (chain self) i = Some b -> index b = Z.of_nat i + 1.
Proof.
  intro Hreach. split; [apply reachable_chain_nonempty; exact Hreach|].
  induction Hreach as [now self Hinit | self self' Hreach IH Hstep].
  - rewrite init_fresh_node in Hinit. injection Hinit as <-.
    intros [|[|i]] b Hb; simpl in Hb; try discriminate.
    injection Hb as <-. reflexivity.
  - destruct (step_chain _ _ Hstep) as [-> | (blk & -> & Hidx)]; [exact IH|].
    intros i b Hb.
    destruct (Nat.lt_ge_cases i (length (chain self))) as [Hlt | Hge].
    + rewrite nth_error_app1 in Hb by exact Hlt. apply IH. exact Hb.
    + rewrite nth_error_app2 in Hb by exact Hge.
      destruct (i - length (chain self))%nat as [|k] eqn:Ek; simpl in Hb.
      * injection Hb as <-. rewrite Hidx. unfold len. lia.
      * destruct k; discriminate.
Qed.

Lemma reachable_index_is_position_witness :
  chain (mkBlockchain (sealed_once noon minute_later) [] []) <> [] /\
  forall i b,
    nth_error (chain (mkBlockchain (sealed_once noon minute_later) [] [])) i = Some b ->
    index b = Z.of_nat i + 1.
Proof.
  apply (reachable_index_is_position (mkBlockchain (sealed_once noon minute_later) [] [])).
  apply reachable_step with (self := fresh_node noon []).
  - apply reachable_init with (now := noon). reflexivity.
  - apply step_new_block with (now := minute_later) (p := 35293) (ph := VNone)
                              (b := second_block noon minute_later).
    reflexivity.
Defined.

(** The two operations never raise on a reachable ledger, so every call
    is a step. *)
Lemma reachable_operations_return self :
  reachable self ->
  (forall s r a, exists n self', new_transaction s r a self = (Returns n, self')) /\
  (forall now p ph, exists b self', new_block now p ph self = (Returns b, self')).
Proof.
  intro H. apply reachable_chain_nonempty in H. rename H into Hne. split.
  - intros s r a. destruct (new_transaction_returns s r a self Hne) as (n & E).
    eauto.
  - intros now p ph. destruct (new_block_returns now p ph self Hne) as (link & E).
    eauto.
Qed.

(** ** The previous hash of a new block *)

(** C9. On a ledger whose last block is [last], [new_block] called with
    the integer 0 or the empty string as [previous_hash] does what it does
    when the argument is omitted: the new block's [previous_hash] is the
    digest of [last], not the supplied value.  A supplied value that is
    true is stored as it is. *)
Theorem new_block_previous_hash (now : pyfloat) (p : Z) (ph : value)
    (self : Blockchain) (last : Block) :
  item_last (chain self) = Returns last ->
  exists b self',
    new_block now p ph self = (Returns b, self') /\
    (ph = VInt 0 \/ ph = VStr "" ->
       previous_hash b = VStr (hash last) /\
       previous_hash b <> ph /\
       new_block now p ph self = new_block now p VNone self) /\
    (truthy ph = true -> previous_hash b = ph).
Proof.
  intro Hlast. unfold new_block. rewrite Hlast.
  destruct (truthy ph) eqn:T.
  - do 2 eexists. split; [reflexivity|]. split.
    + intros [-> | ->]; discriminate.
    + reflexivity.
  - do 2 eexists. split; [reflexivity|]. split.
    + intros Hph. simpl. repeat split.
      intro E. rewrite <- E in T. rewrite hash_truthy in T. discriminate.
    + discriminate.
Qed.

Lemma new_block_previous_hash_witness :
  exists b self',
    new_block minute_later 35293 (VInt 0) (fresh_node noon []) = (Returns b, self') /\
    (VInt 0 = VInt 0 \/ VInt 0 = VStr "" ->
       previous_hash b = VStr (hash (genesis_block noon)) /\
       previous_hash b <> VInt 0 /\
       new_block minute_later 35293 (VInt 0) (fresh_node noon [])
       = new_block minute_later 35293 VNone (fresh_node noon [])) /\
    (truthy (VInt 0) = true -> previous_hash b = VInt 0).
Proof.
  apply (new_block_previous_hash minute_later 35293 (VInt 0) (fresh_node noon [])
           (genesis_block noon)).
  reflexivity.
Defined.

(** Every false value is treated like the omitted argument, [None]
    included. *)
Lemma new_block_falsy_is_omitted now p ph self :
  truthy ph = false -> new_block now p ph self = new_block now p VNone self.
Proof. intro T. unfold new_block. rewrite T. reflexivity. Qed.

(** With a false argument on an empty chain, [chain[-1]] raises and the
    object is as before. *)
Lemma new_block_on_empty_chain now p ph txs peers :
  truthy ph = false ->
  new_block now p ph (mkBlockchain [] txs peers)
  = (Raises IndexError, mkBlockchain [] txs peers).
Proof. intro T. unfold new_block. rewrite T. reflexivity. Qed.

(** ** [valid_chain] *)

Lemma long_chain (b1 b2 : Block) (rest : list Block) :
  (1 <? len (b1 :: b2 :: rest)) = true.
Proof. apply Z.ltb_lt. unfold len. simpl length. lia. Qed.

Lemma one_block_chain (b : Block) : (1 <? len [b]) = false.
Proof. reflexivity. Qed.

(** One turn of the loop on a chain of two blocks or more: whatever
    [last_block] is, the block read is the one at position 1. *)
Lemma valid_chain_loop_long self_hash fuel b1 b2 rest last :
  valid_chain_loop self_hash (S fuel) (b1 :: b2 :: rest) last =
  match call_self_hash self_hash last with
  | Returns h =>
      if negb (value_eqb (previous_hash b2) h) then Returns false
      else if negb (valid_proof (proof last) (proof b2)) then Returns false
      else valid_chain_loop self_hash fuel (b1 :: b2 :: rest) b2
  | Raises e => Raises e
  | Unfinished => Unfinished
  end.
Proof.
  cbn [valid_chain_loop]. rewrite long_chain. reflexivity.
Qed.

(** [chain[0]] on a chain with a first block. *)
Lemma valid_chain_with_cons self_hash fuel b rest :
  valid_chain_with self_hash fuel (b :: rest) =
  valid_chain_loop self_hash fuel (b :: rest) b.
Proof. reflexivity. Qed.

(** A chain of one block: the loop test is false at once. *)
Lemma valid_chain_one_block self_hash fuel b :
  valid_chain_with self_hash (S fuel) [b] = Returns true.
Proof. reflexivity. Qed.

(** As the module stands, the scan of a chain of two blocks or more ends
    on line 36 with [NameError], before any comparison is made. *)
Lemma valid_chain_two_or_more fuel b1 b2 rest :
  valid_chain (S fuel) (b1 :: b2 :: rest) = Raises NameError.
Proof.
  unfold valid_chain. rewrite valid_chain_with_cons, valid_chain_loop_long.
  reflexivity.
Qed.

(** With [self_hash] read as [self.hash] the loop never gets past
    position 1, and on two blocks or more it never returns [True]: it
    returns [False] or does not return. *)
Lemma valid_chain_loop_never_true fuel b1 b2 rest :
  forall last,
    valid_chain_loop (Some hash) fuel (b1 :: b2 :: rest) last <> Returns true.
Proof.
  induction fuel as [|fuel IH]; intro last.
  - discriminate.
  - rewrite valid_chain_loop_long. cbn [call_self_hash].
    destruct (negb (value_eqb (previous_hash b2) (VStr (hash last)))); [discriminate|].
    destruct (negb (valid_proof (proof last) (proof b2))); [discriminate|].
    apply IH.
Qed.

Lemma valid_chain_self_dot_hash_never_true fuel b1 b2 rest :
  valid_chain_self_dot_hash fuel (b1 :: b2 :: rest) <> Returns true.
Proof.
  unfold valid_chain_self_dot_hash. rewrite valid_chain_with_cons.
  apply valid_chain_loop_never_true.
Qed.

(** In that reading, a first pair that passes is followed by the
    comparison of the block at position 1 with itself. *)
Lemma valid_chain_self_dot_hash_second_turn fuel b1 b2 rest :
  pair_linked b1 b2 = true ->
  valid_chain_self_dot_hash (S (S fuel)) (b1 :: b2 :: rest) =
  if negb (value_eqb (previous_hash b2) (VStr (hash b2))) then Returns false
  else if negb (valid_proof (proof b2) (proof b2)) then Returns false
  else valid_chain_loop (Some hash) fuel (b1 :: b2 :: rest) b2.
Proof.
  unfold pair_linked. intro H. apply andb_true_iff in H. destruct H as [Hlink Hproof].
  unfold valid_chain_self_dot_hash.
  rewrite valid_chain_with_cons, valid_chain_loop_long. cbn [call_self_hash].
  rewrite Hlink, Hproof. cbn [negb].
  rewrite valid_chain_loop_long. reflexivity.
Qed.

(** The scan never raises [IndexError] on a non-empty chain: position 1
    is read only after the test found two blocks or more. *)
Lemma valid_chain_loop_no_index_error self_hash fuel chain :
  forall last, valid_chain_loop self_hash fuel chain last <> Raises IndexError.
Proof.
  induction fuel as [|fuel IH]; intro last; [discriminate|].
  destruct chain as [|b1 [|b2 rest]]; try discriminate.
  rewrite valid_chain_loop_long.
  destruct self_hash as [f|]; cbn [call_self_hash]; [|discriminate].
  destruct (negb (value_eqb (previous_hash b2) (VStr (f last)))); [discriminate|].
  destruct (negb (valid_proof (proof last) (proof b2))); [discriminate|].
  apply IH.
Qed.

(** C10. [valid_chain] reads [chain[0]] first: on the empty chain the
    access raises [IndexError] and no boolean is returned, and on a
    non-empty chain the scan never raises [IndexError]. *)
Theorem valid_chain_needs_nonempty_chain (fuel : nat) :
  valid_chain fuel [] = Raises IndexError /\
  forall chain, chain <> [] -> valid_chain fuel chain <> Raises IndexError.
Proof.
  split; [reflexivity|].
  intros [|b rest] H; [contradiction|].
  unfold valid_chain. rewrite valid_chain_with_cons.
  apply valid_chain_loop_no_index_error.
Qed.

Lemma valid_chain_needs_nonempty_chain_witness :
  valid_chain 3 [] = Raises IndexError /\
  valid_chain 3 (sealed_once noon minute_later) <> Raises IndexError.
Proof.
  destruct (valid_chain_needs_nonempty_chain 3) as [Hempty Hrest].
  split; [exact Hempty|].
  apply Hrest. discriminate.
Defined.

(** The same in the reading [self.hash]. *)
Lemma valid_chain_self_dot_hash_needs_nonempty_chain fuel :
  valid_chain_self_dot_hash fuel [] = Raises IndexError /\
  forall chain, chain <> [] -> valid_chain_self_dot_hash fuel chain <> Raises IndexError.
Proof.
  split; [reflexivity|].
  intros [|b rest] H; [contradiction|].
  unfold valid_chain_self_dot_hash. rewrite valid_chain_with_cons.
  apply valid_chain_loop_no_index_error.
Qed.

(** The chain of a fresh ledger after one seal has its one pair linked. *)
Lemma sealed_once_linked t0 t1 : every_adjacent_pair_linked (sealed_once t0 t1) = true.
Proof.
  unfold sealed_once. cbn [every_adjacent_pair_linked]. unfold pair_linked.
  unfold second_block at 1 2. cbn [previous_hash proof genesis_block].
  rewrite value_eqb_refl, valid_proof_100_35293. reflexivity.
Qed.

(** C1, at the chain of a ledger sealed once with the proof that
    [proof_of_work] finds: its only adjacent pair passes both tests, yet
    [valid_chain] does not return true; it raises [NameError], and with
    [self_hash] read as [self.hash] it still never returns true. *)
Theorem valid_chain_on_sealed_once (t0 t1 : pyfloat) (fuel : nat) :
  every_adjacent_pair_linked (sealed_once t0 t1) = true /\
  valid_chain (S fuel) (sealed_once t0 t1) = Raises NameError /\
  valid_chain_self_dot_hash fuel (sealed_once t0 t1) <> Returns true.
Proof.
  split; [apply sealed_once_linked|]. split.
  - apply valid_chain_two_or_more.
  - apply valid_chain_self_dot_hash_never_true.
Qed.

(** At concrete times, the reading [self.hash] returns [False] on that
    chain: in the second turn the block at position 1 is compared with
    its own digest. *)
Example valid_chain_self_dot_hash_sealed_once :
  valid_chain_self_dot_hash 5 (sealed_once noon minute_later) = Returns false.
Proof. vm_compute. reflexivity. Qed.

(** A chain whose only pair is not linked: the scan does not get to say
    so either. *)
Example valid_chain_unlinked_pair :
  every_adjacent_pair_linked [genesis_block noon; genesis_block minute_later] = false /\
  valid_chain 5 [genesis_block noon; genesis_block minute_later] = Raises NameError.
Proof. split; vm_compute; reflexivity. Qed.

(** ** [resolve_conflicts] *)

Section ResolveFacts.

Variable requests_get : string -> outcome Response.
Variable validate : list Block -> outcome bool.

(** The object changes only when [True] is returned. *)
Lemma resolve_untouched_unless_true self :
  fst (resolve_conflicts_with requests_get validate self) <> Returns true ->
  snd (resolve_conflicts_with requests_get validate self) = self.
Proof.
  unfold resolve_conflicts_with.
  destruct (resolve_loop requests_get validate (nodes self) None (len (chain self)))
    as [[[[|b bs]|] ml]| e |]; simpl; try reflexivity.
  intro H. exfalso. apply H. reflexivity.
Qed.


(** A candidate that comes out of the loop either went in, or was
    reported with status 200 and a length above the bound the loop started
    from, and passed the validator. *)
Lemma resolve_loop_candidate neighbours :
  forall new_chain max_length candidate bound,
    resolve_loop requests_get validate neighbours new_chain max_length
    = Returns (Some candidate, bound) ->
    (new_chain = Some candidate /\ bound = max_length) \/
    exists node response,
      In node neighbours /\
      requests_get (url_of node) = Returns response /\
      status_code response = 200 /\
      json_length response > max_length /\
      bound = json_length response /\
      json_chain response = candidate /\
      validate candidate = Returns true.
Proof.
  induction neighbours as [|node rest IH]; intros nc ml cand bound H.
  - simpl in H. injection H as -> ->. left. split; reflexivity.
  - cbn [resolve_loop] in H.
    destruct (requests_get (url_of node)) as [response| |] eqn:G; try discriminate.
    assert (Hrest : forall node' response',
               In node' rest /\ requests_get (url_of node') = Returns response' /\
               status_code response' = 200 /\ json_length response' > ml /\
               bound = json_length response' /\ json_chain response' = cand /\
               validate cand = Returns true ->
               exists node0 response0,
                 In node0 (node :: rest) /\
                 requests_get (url_of node0) = Returns response0 /\
                 status_code response0 = 200 /\ json_length response0 > ml /\
                 bound = json_length response0 /\ json_chain response0 = cand /\
                 validate cand = Returns true).
    { intros n r (Hin & Hrest). exists n, r. split; [right; exact Hin | exact Hrest]. }
    destruct (status_code response =? 200) eqn:St.
    + destruct (json_length response >? ml) eqn:Gt.
      * apply Z.eqb_eq in St. apply Z.gtb_lt in Gt.
        destruct (validate (json_chain response)) as [[|]| |] eqn:V; try discriminate.
        -- apply IH in H. destruct H as [[E ->] | (n & r & Hin & Hg & Hs & Hl & Hb & Hc & Hv)].
           ++ injection E as <-. right. exists node, response.
              repeat split; try assumption; [left; reflexivity | lia].
           ++ right. apply (Hrest n r). repeat split; try assumption. lia.
        -- apply IH in H. destruct H as [H | (n & r & H)]; [left; exact H|].
           right. apply (Hrest n r). exact H.
      * apply IH in H. destruct H as [H | (n & r & H)]; [left; exact H|].
        right. apply (Hrest n r). exact H.
    + apply IH in H. destruct H as [H | (n & r & H)]; [left; exact H|].
      right. apply (Hrest n r). exact H.
Qed.

(** If [True] is returned, the new chain was reported by a peer with
    status 200 and a length strictly above the length of the local chain,
    and the validator returned [True] on it. *)
Lemma resolve_true_from_longer_report self self' :
  resolve_conflicts_with requests_get validate self = (Returns true, self') ->
  exists node response,
    In node (nodes self) /\
    requests_get (url_of node) = Returns response /\
    status_code response = 200 /\
    json_length response > len (chain self) /\
    json_chain response = chain self' /\
    validate (chain self') = Returns true.
Proof.
  unfold resolve_conflicts_with.
  destruct (resolve_loop requests_get validate (nodes self) None (len (chain self)))
    as [[[[|b bs]|] ml]| e |] eqn:L; intro H; try discriminate.
  injection H as <-. cbn [chain].
  apply resolve_loop_candidate in L.
  destruct L as [[E _] | (n & r & Hin & Hg & Hs & Hl & _ & Hc & Hv)]; [discriminate|].
  exists n, r. repeat split; assumption.
Qed.





(** Once a candidate is held, the loop ends with a candidate. *)
Lemma resolve_loop_keeps_candidate neighbours :
  forall held max_length new_chain bound,
    resolve_loop requests_get validate neighbours (Some held) max_length
    = Returns (new_chain, bound) ->
    exists candidate, new_chain = Some candidate.
Proof.
  induction neighbours as [|n rest IH]; intros held ml nc bound H.
  - simpl in H. injection H as <- _. eauto.
  - cbn [resolve_loop] in H.
    destruct (requests_get (url_of n)) as [r| |]; try discriminate.
    destruct (status_code r =? 200); [|eapply IH; exact H].
    destruct (json_length r >? ml); [|eapply IH; exact H].
    destruct (validate (json_chain r)) as [[|]| |]; try discriminate;
      eapply IH; exact H.
Qed.

(** If the loop ends without a candidate, no peer answered with status
    200, a chain the validator accepts and a length above the bound. *)
Lemma resolve_loop_no_candidate neighbours :
  forall max_length bound,
    resolve_loop requests_get validate neighbours None max_length
    = Returns (None, bound) ->
    forall node response,
      In node neighbours ->
      requests_get (url_of node) = Returns response ->
      status_code response = 200 ->
      validate (json_chain response) = Returns true ->
      json_length response <= max_length.
Proof.
  induction neighbours as [|n rest IH]; intros ml bound H node response Hin G St V;
    [contradiction|].
  cbn [resolve_loop] in H.
  destruct (requests_get (url_of n)) as [r| |] eqn:Gn; try discriminate.
  destruct Hin as [-> | Hin].
  - rewrite G in Gn. injection Gn as <-.
    apply Z.eqb_eq in St. rewrite St in H.
    destruct (json_length response >? ml) eqn:Gt.
    + rewrite V in H. apply resolve_loop_keeps_candidate in H.
      destruct H as (c & H). discriminate.
    + rewrite Z.gtb_ltb in Gt. apply Z.ltb_ge in Gt. exact Gt.
  - destruct (status_code r =? 200); [|eapply IH; eassumption].
    destruct (json_length r >? ml); [|eapply IH; eassumption].
    destruct (validate (json_chain r)) as [[|]| |]; try discriminate.
    + apply resolve_loop_keeps_candidate in H. destruct H as (c & H). discriminate.
    + eapply IH; eassumption.
Qed.

(** When the call returns, with a validator that does not accept the
    empty chain, it returns [True] exactly if some peer answered with
    status 200, a length strictly above the local one and a chain on which
    the validator returned [True]. *)
Lemma resolve_with_returns_true_iff self b self' :
  validate [] <> Returns true ->
  resolve_conflicts_with requests_get validate self = (Returns b, self') ->
  (b = true <->
   exists node response,
     In node (nodes self) /\
     requests_get (url_of node) = Returns response /\
     status_code response = 200 /\
     json_length response > len (chain self) /\
     validate (json_chain response) = Returns true).
Proof.
  intros Hempty H. split.
  - intros ->. apply resolve_true_from_longer_report in H.
    destruct H as (n & r & Hin & Hg & Hs & Hl & Hc & Hv).
    exists n, r. rewrite Hc. repeat split; assumption.
  - intros (n & r & Hin & Hg & Hs & Hl & Hv).
    unfold resolve_conflicts_with in H.
    destruct (resolve_loop requests_get validate (nodes self) None (len (chain self)))
      as [[[[|blk bs]|] ml]| e |] eqn:L; try discriminate.
    + apply resolve_loop_candidate in L.
      destruct L as [[E _] | (n' & r' & _ & _ & _ & _ & _ & _ & V)]; [discriminate|].
      contradiction.
    + injection H as <- _. reflexivity.
    + pose proof (resolve_loop_no_candidate _ _ _ L n r Hin Hg Hs Hv). lia.
Qed.

End ResolveFacts.

(** [resolve_conflicts], whenever it returns: it returns [True] exactly
    if some peer answered with status 200, a reported length strictly
    above the length of the local chain, and a chain on which
    [valid_chain] returned [True]; the ledger is unchanged unless [True]
    is returned. *)
Lemma resolve_conflicts_returns_true_iff fuel requests_get self b self' :
  resolve_conflicts fuel requests_get self = (Returns b, self') ->
  (b = true <->
   exists node response,
     In node (nodes self) /\
     requests_get (url_of node) = Returns response /\
     status_code response = 200 /\
     json_length response > len (chain self) /\
     valid_chain fuel (json_chain response) = Returns true) /\
  (b = false -> self' = self).
Proof.
  intro H. split.
  - apply (resolve_with_returns_true_iff requests_get (valid_chain fuel) self b self');
      [|exact H].
    destruct fuel; discriminate.
  - intros ->.
    pose proof (resolve_untouched_unless_true requests_get (valid_chain fuel) self) as U.
    unfold resolve_conflicts in H. rewrite H in U. cbn [fst snd] in U.
    apply U. discriminate.
Qed.

(** A fresh node and one peer that serves the chain of a ledger sealed
    once: the report is longer than the local chain and its pair is
    linked, and the call ends with the [NameError] of the scan; the local
    chain stays. *)
Lemma resolve_conflicts_raises_on_longer_chain t0 t1 fuel :
  resolve_conflicts (S fuel) (sample_network t0 t1) (fresh_node t0 ["peer:5000"%string])
  = (Raises NameError, fresh_node t0 ["peer:5000"%string]).
Proof.
  unfold resolve_conflicts, resolve_conflicts_with.
  cbn [nodes fresh_node resolve_loop].
  change (sample_network t0 t1 (url_of "peer:5000"))
    with (Returns (serves (sealed_once t0 t1))).
  cbn [serves status_code json_length json_chain].
  change (200 =? 200) with true. cbv iota.
  change (len (sealed_once t0 t1) >? len (chain (fresh_node t0 ["peer:5000"%string])))
    with true. cbv iota.
  unfold sealed_once. rewrite valid_chain_two_or_more. reflexivity.
Qed.

(** C2, at a fresh node whose one peer serves the chain of a ledger
    sealed once: the peer answers with status 200, the reported length 2
    exceeds the local length 1 and the only pair of the reported chain
    passes both tests, yet [resolve_conflicts] does not replace the local
    chain and does not return true: it raises [NameError]; with
    [self_hash] read as [self.hash] it does not return true either. *)
Theorem resolve_conflicts_misses_longer_valid_chain (t0 t1 : pyfloat) (fuel : nat) :
  sample_network t0 t1 (url_of "peer:5000") = Returns (serves (sealed_once t0 t1)) /\
  status_code (serves (sealed_once t0 t1)) = 200 /\
  json_length (serves (sealed_once t0 t1)) > len (chain (fresh_node t0 ["peer:5000"%string])) /\
  every_adjacent_pair_linked (sealed_once t0 t1) = true /\
  resolve_conflicts (S fuel) (sample_network t0 t1) (fresh_node t0 ["peer:5000"%string])
  = (Raises NameError, fresh_node t0 ["peer:5000"%string]) /\
  fst (resolve_conflicts_self_dot_hash fuel (sample_network t0 t1)
         (fresh_node t0 ["peer:5000"%string])) <> Returns true.
Proof.
  split; [reflexivity|]. split; [reflexivity|]. split; [reflexivity|].
  split; [apply sealed_once_linked|]. split.
  - apply resolve_conflicts_raises_on_longer_chain.
  - intro H.
    destruct (resolve_conflicts_self_dot_hash fuel (sample_network t0 t1)
                (fresh_node t0 ["peer:5000"%string])) as [r self'] eqn:E.
    cbn [fst] in H. subst r.
    apply resolve_true_from_longer_report in E.
    destruct E as (n & r & Hin & Hg & _ & _ & Hc & Hv).
    destruct Hin as [<- | []].
    change (sample_network t0 t1 (url_of "peer:5000"))
      with (Returns (serves (sealed_once t0 t1))) in Hg.
    injection Hg as <-. cbn [serves json_chain] in Hc. rewrite <- Hc in Hv.
    revert Hv. apply valid_chain_self_dot_hash_never_true.
Qed.

(** At concrete times, the reading [self.hash] returns [False] and keeps
    the local chain. *)
Example resolve_conflicts_self_dot_hash_sealed_once :
  resolve_conflicts_self_dot_hash 5 (sample_network noon minute_later)
    (fresh_node noon ["peer:5000"%string])
  = (Returns false, fresh_node noon ["peer:5000"%string]).
Proof. vm_compute. reflexivity. Qed.

(** What the procedure does get right: a report of the same length as
    the local chain is not adopted, and a chain of one block reported
    with a greater length is. *)
Example resolve_conflicts_equal_length :
  resolve_conflicts 5 (fun _ => Returns (serves [genesis_block minute_later]))
    (fresh_node noon ["peer:5000"%string])
  = (Returns false, fresh_node noon ["peer:5000"%string]).
Proof. vm_compute. reflexivity. Qed.

Example resolve_conflicts_one_block_reported_longer :
  resolve_conflicts 5 (fun _ => Returns (mkResponse 200 7 [genesis_block minute_later]))
    (fresh_node noon ["peer:5000"%string])
  = (Returns true, mkBlockchain [genesis_block minute_later] [] ["peer:5000"%string]).
Proof. vm_compute. reflexivity. Qed.




(** The outcome does depend on the order of the visit: of two chains
    reported with the same length the one visited first is adopted, so a
    call on the two remaining peers visited in another order adopts the
    other chain. *)
Example resolve_conflicts_order_of_visit :
  chain (snd (resolve_conflicts 5 three_peers
                (mkBlockchain [genesis_block minute_later] []
                   ["peer21:5000"; "peer1:5000"; "peer0:5000"]%string)))
  = [stray_block] /\
  chain (snd (resolve_conflicts 5 three_peers
                (mkBlockchain [genesis_block minute_later] []
                   ["peer21:5000"; "peer1:5000"]%string)))
  = [stray_block] /\
  chain (snd (resolve_conflicts 5 three_peers
                (mkBlockchain [genesis_block minute_later] []
                   ["peer1:5000"; "peer21:5000"]%string)))
  = [genesis_block noon].
Proof. repeat split; vm_compute; reflexivity. Qed.

(** The peer with status 500 is passed over and the next one examined;
    a chain of one block reported with length 3 is then adopted. *)
Example resolve_conflicts_after_failed_status :
  resolve_conflicts 5
    (fun url => if String.eqb url "http://down:5000/chain" then Returns server_error
                else Returns (mkResponse 200 3 [genesis_block minute_later]))
    (fresh_node noon ["down:5000"; "peer:5000"]%string)
  = (Returns true,
     mkBlockchain [genesis_block minute_later] [] ["down:5000"; "peer:5000"]%string).
Proof. vm_compute. reflexivity. Qed.

(** * Further properties of the code *)

(** ** The shape of a digest *)

Lemma hex_digit_lower_hex (n : Z) : lower_hex (Sha256.hex_digit n) = true.
Proof.
  destruct n as [|p|p]; try reflexivity.
  do 4 (destruct p as [p|p|]; try reflexivity).
Qed.

Lemma hex_of_word_length (w : Z) : length (Sha256.hex_of_word w) = 8%nat.
Proof. unfold Sha256.hex_of_word. rewrite length_map. reflexivity. Qed.

Lemma hex_of_word_lower_hex (w : Z) : forallb lower_hex (Sha256.hex_of_word w) = true.
Proof.
  unfold Sha256.hex_of_word. apply forallb_forall. intros c Hc.
  apply in_map_iff in Hc. destruct Hc as (i & <- & _).
  apply hex_digit_lower_hex.
Qed.

Lemma string_length_of_list (l : list ascii) :
  String.length (string_of_list_ascii l) = length l.
Proof. induction l as [|c l IH]; simpl; [reflexivity | rewrite IH; reflexivity]. Qed.

(** X1. The digest that [hash] gives for a block, whatever the block, is
    a string of 64 characters, each a digit or a letter from a to f. *)
Theorem hash_is_64_lower_hex (block : Block) :
  String.length (hash block) = 64%nat /\
  forallb lower_hex (list_ascii_of_string (hash block)) = true.
Proof.
  unfold hash, sha256_hexdigest, Sha256.hexdigest.
  pose proof (sha256_length (encode (Json.dumps block))) as H8.
  generalize dependent (Sha256.sha256 (encode (Json.dumps block))). intros ws H8. split.
  - rewrite string_length_of_list.
    rewrite (flat_map_constant_length (c := 8%nat)); [rewrite H8; reflexivity|].
    intros w _. apply hex_of_word_length.
  - rewrite list_ascii_of_string_of_list_ascii. clear H8.
    induction ws as [|w ws IH]; [reflexivity|].
    cbn [flat_map]. rewrite forallb_app, hex_of_word_lower_hex, IH. reflexivity.
Qed.

(** ** The cost of the search *)

Lemma proof_of_work_from_cost fuel last_proof :
  forall start q,
    proof_of_work_from fuel last_proof start = Some q ->
    (Z.to_nat (q - start) < fuel)%nat.
Proof.
  induction fuel as [|fuel IH]; intros start q H; simpl in H; [discriminate|].
  destruct (valid_proof last_proof start) eqn:V.
  - injection H as <-. rewrite Z.sub_diag. simpl. lia.
  - pose proof (proof_of_work_from_sound _ _ _ _ H) as (Hle & _).
    apply IH in H. lia.
Qed.

(** X2. [proof_of_work] returns [q] within [fuel] loop tests exactly if
    [q] is the smallest non-negative integer that [valid_proof] accepts
    after [last_proof] and [fuel] exceeds [q]: the search for [q] takes
    [q + 1] tests, and a search cut short has returned nothing. *)
Theorem proof_of_work_returns_iff (fuel : nat) (last_proof q : Z) :
  proof_of_work fuel last_proof = Some q <->
  0 <= q /\ (Z.to_nat q < fuel)%nat /\
  valid_proof last_proof q = true /\
  (forall r, 0 <= r < q -> valid_proof last_proof r = false).
Proof.
  unfold proof_of_work. split.
  - intro H. pose proof (proof_of_work_from_cost _ _ _ _ H) as Hcost.
    rewrite Z.sub_0_r in Hcost.
    apply proof_of_work_from_sound in H. destruct H as (H0 & Hq & Hmin).
    repeat split; assumption.
  - intros (H0 & Hfuel & Hq & Hmin).
    destruct (proof_of_work_from_finds last_proof q Hq fuel 0) as (q' & H');
      [exact H0 | rewrite Z.sub_0_r; exact Hfuel |].
    rewrite H'. f_equal.
    apply proof_of_work_from_sound in H'. destruct H' as (H0' & Hq' & Hmin').
    destruct (Z.lt_trichotomy q' q) as [Hlt | [Heq | Hgt]]; [|exact Heq|].
    + rewrite Hmin in Hq' by lia. discriminate.
    + rewrite Hmin' in Hq by lia. discriminate.
Qed.

(** ** What [valid_chain] answers *)

(** X3. With fuel for one loop test, the answer of [valid_chain] depends
    on the number of blocks alone: [IndexError] on no block, [True] on one
    block, [NameError] on two blocks or more.  It never returns [False]. *)
Theorem valid_chain_by_length (fuel : nat) (chain : list Block) :
  valid_chain (S fuel) chain =
  match chain with
  | [] => Raises IndexError
  | [_] => Returns true
  | _ :: _ :: _ => Raises NameError
  end.
Proof.
  destruct chain as [|b1 [|b2 rest]].
  - reflexivity.
  - apply valid_chain_one_block.
  - apply valid_chain_two_or_more.
Qed.

(** [True] is returned on chains of one block only, whatever the fuel. *)
Lemma valid_chain_true_one_block fuel chain :
  valid_chain fuel chain = Returns true -> exists b, chain = [b].
Proof.
  destruct fuel as [|fuel].
  - destruct chain; discriminate.
  - destruct chain as [|b1 [|b2 rest]]; intro H.
    + discriminate.
    + eauto.
    + rewrite valid_chain_two_or_more in H. discriminate.
Qed.

(** ** Sealing and submitting *)

(** On a reachable ledger the last block carries the length of the chain
    as its index. *)
Lemma reachable_last_index (self : Blockchain) :
  reachable self ->
  exists last, item_last (chain self) = Returns last /\ index last = len (chain self).
Proof.
  induction 1 as [now self Hinit | self self' Hreach (last & Hlast & Hidx) Hstep].
  - rewrite init_fresh_node in Hinit. injection Hinit as <-.
    exists (genesis_block now). split; reflexivity.
  - destruct (step_chain _ _ Hstep) as [-> | (blk & -> & Hblk)].
    + exists last. split; assumption.
    + exists blk. split; [apply item_last_app|].
      rewrite Hblk. unfold len. rewrite length_app. simpl. lia.
Qed.

(** X4. On a reachable ledger, the number that [new_transaction] returns
    is the index of the block that the next [new_block] call appends, and
    that block holds the transaction. *)
Theorem new_transaction_names_next_block (self : Blockchain)
    (s r : string) (a : Z) (now : pyfloat) (p : Z) (ph : value) :
  reachable self ->
  exists n pending b sealed,
    new_transaction s r a self = (Returns n, pending) /\
    new_block now p ph pending = (Returns b, sealed) /\
    index b = n /\
    In (mkTransaction s r a) (transactions b).
Proof.
  intro Hreach.
  destruct (reachable_last_index self Hreach) as (last & Hlast & Hidx).
  pose proof (reachable_chain_nonempty self Hreach) as Hne.
  set (pending := mkBlockchain (chain self)
                    (current_transactions self ++ [mkTransaction s r a]) (nodes self)).
  destruct (new_block_returns now p ph pending Hne) as (link & Hseal).
  exists (index last + 1), pending. do 2 eexists.
  split; [|split; [exact Hseal|]].
  - unfold new_transaction, last_block. cbn [chain]. rewrite Hlast. reflexivity.
  - cbn [index transactions pending chain current_transactions]. split; [lia|].
    apply in_or_app. right. left. reflexivity.
Qed.

Lemma new_transaction_names_next_block_witness :
  exists n pending b sealed,
    new_transaction "A" "B" 10 (fresh_node noon []) = (Returns n, pending) /\
    new_block minute_later 35293 VNone pending = (Returns b, sealed) /\
    index b = n /\
    In (mkTransaction "A" "B" 10) (transactions b).
Proof.
  apply (new_transaction_names_next_block (fresh_node noon []) "A" "B" 10
           minute_later 35293 VNone).
  apply reachable_init with (now := noon). reflexivity.
Defined.

Lemma steps_chain self self' :
  steps self self' ->
  exists added, chain self' = chain self ++ added /\ nodes self' = nodes self.
Proof.
  induction 1 as [self | self middle self' Hsteps (added & Hchain & Hnodes) Hstep].
  - exists []. rewrite app_nil_r. split; reflexivity.
  - assert (Hn : nodes self' = nodes middle).
    { destruct Hstep as [s r a self0 n self1 H | now p ph self0 b self1 H].
      - unfold new_transaction in H.
        destruct (last_block _); injection H as _ <-; reflexivity.
      - unfold new_block in H. destruct (truthy ph).
        + injection H as _ <-. reflexivity.
        + destruct (item_last (chain self0)); try discriminate.
          injection H as _ <-. reflexivity. }
    destruct (step_chain _ _ Hstep) as [E | (blk & E & _)].
    + exists added. rewrite E, Hn. split; assumption.
    + exists (added ++ [blk]). rewrite E, Hchain, Hn, app_assoc. split; [reflexivity|assumption].
Qed.

(** X5. The chain is append-only under [new_transaction] and [new_block]:
    after any number of returning calls the chain begins with the chain
    there was before, so the block at a position stays the block at that
    position. *)
Theorem chain_is_append_only (self self' : Blockchain) :
  steps self self' ->
  (exists added, chain self' = chain self ++ added) /\
  forall i b, nth_error (chain self) i = Some b -> nth_error (chain self') i = Some b.
Proof.
  intro H. destruct (steps_chain _ _ H) as (added & Hchain & _). split.
  - exists added. exact Hchain.
  - intros i b Hb. rewrite Hchain. rewrite nth_error_app1; [exact Hb|].
    apply nth_error_Some. rewrite Hb. discriminate.
Qed.

Lemma chain_is_append_only_witness :
  (exists added,
      chain (mkBlockchain (sealed_once noon minute_later) [] [])
      = chain (fresh_node noon []) ++ added) /\
  forall i b,
    nth_error (chain (fresh_node noon [])) i = Some b ->
    nth_error (chain (mkBlockchain (sealed_once noon minute_later) [] [])) i = Some b.
Proof.
  apply (chain_is_append_only (fresh_node noon [])
           (mkBlockchain (sealed_once noon minute_later) [] [])).
  apply steps_more with (middle := fresh_node noon []).
  - apply steps_none.
  - apply step_new_block with (now := minute_later) (p := 35293) (ph := VNone)
                              (b := second_block noon minute_later).
    reflexivity.
Defined.

(** X6. [new_block] fails in one case only: on an empty chain with a
    [previous_hash] that is false it raises [IndexError] and leaves the
    ledger, pool included, as it was.  In every other case it returns the
    block it appended, whose index is the new length of the chain. *)
Theorem new_block_raises_iff (now : pyfloat) (p : Z) (ph : value) (self : Blockchain) :
  (chain self = [] /\ truthy ph = false <->
   new_block now p ph self = (Raises IndexError, self)) /\
  (chain self <> [] \/ truthy ph = true <->
   exists b,
     new_block now p ph self
     = (Returns b, mkBlockchain (chain self ++ [b]) [] (nodes self)) /\
     index b = len (chain self ++ [b]) /\
     transactions b = current_transactions self).
Proof.
  assert (Hidx : forall (c : list Block) (b : Block), len c + 1 = len (c ++ [b])).
  { intros c b. unfold len. rewrite length_app. simpl. lia. }
  unfold new_block. destruct (truthy ph) eqn:T.
  - split; split.
    + intros [_ H]. discriminate.
    + discriminate.
    + intros _. eexists. split; [reflexivity|]. split; [apply Hidx | reflexivity].
    + intros _. right. reflexivity.
  - destruct (chain self) as [|b0 rest] eqn:C.
    + split; split.
      * intros _. reflexivity.
      * intros _. split; reflexivity.
      * intros [H | H]; [contradiction | discriminate].
      * intros (b & H & _). discriminate.
    + rewrite <- C.
      destruct (item_last_nonempty (chain self)) as (last & ->);
        [rewrite C; discriminate|].
      split; split.
      * intros [H _]. rewrite C in H. discriminate.
      * discriminate.
      * intros _. eexists. split; [reflexivity|]. split; [apply Hidx | reflexivity].
      * intros _. left. rewrite C. discriminate.
Qed.

(** ** The routes *)

(** X7. The route for new transactions answers ['Missing values'] with
    status 400 and leaves the ledger as it was if one of the three keys is
    missing.  With all three on a ledger that has a block, it answers with
    status 201, names the index after that of the last block, and the
    transaction is the last of the pool. *)
Theorem new_transaction_route_answers (values : TransactionForm) (self : Blockchain)
    (last : Block) :
  item_last (chain self) = Returns last ->
  (form_sender values = None \/ form_recipient values = None \/ form_amount values = None ->
   new_transaction_route values self = (Returns ("Missing values"%string, 400), self)) /\
  (forall s r a,
     values = mkForm (Some s) (Some r) (Some a) ->
     new_transaction_route values self
     = (Returns (("Transaction will be added to Block " ++ str (index last + 1))%string, 201),
        mkBlockchain (chain self)
          (current_transactions self ++ [mkTransaction s r a]) (nodes self))).
Proof.
  intro Hlast. split.
  - unfold new_transaction_route.
    destruct (form_sender values), (form_recipient values), (form_amount values);
      intros [H | [H | H]]; try discriminate; reflexivity.
  - intros s r a ->. unfold new_transaction_route, new_transaction, last_block.
    cbn [form_sender form_recipient form_amount chain]. rewrite Hlast. reflexivity.
Qed.

Lemma new_transaction_route_answers_witness :
  (form_sender (mkForm (Some "A"%string) None (Some 10)) = None \/
   form_recipient (mkForm (Some "A"%string) None (Some 10)) = None \/
   form_amount (mkForm (Some "A"%string) None (Some 10)) = None ->
   new_transaction_route (mkForm (Some "A"%string) None (Some 10)) (fresh_node noon [])
   = (Returns ("Missing values"%string, 400), fresh_node noon [])) /\
  (forall s r a,
     mkForm (Some "A"%string) None (Some 10) = mkForm (Some s) (Some r) (Some a) ->
     new_transaction_route (mkForm (Some "A"%string) None (Some 10)) (fresh_node noon [])
     = (Returns (("Transaction will be added to Block "
                  ++ str (index (genesis_block noon) + 1))%string, 201),
        mkBlockchain (chain (fresh_node noon []))
          (current_transactions (fresh_node noon []) ++ [mkTransaction s r a])
          (nodes (fresh_node noon [])))).
Proof.
  apply (new_transaction_route_answers (mkForm (Some "A"%string) None (Some 10))
           (fresh_node noon []) (genesis_block noon)).
  reflexivity.
Defined.

Example new_transaction_route_complete :
  new_transaction_route (mkForm (Some "A"%string) (Some "B"%string) (Some 10))
    (fresh_node noon [])
  = (Returns ("Transaction will be added to Block 2"%string, 201),
     mkBlockchain [genesis_block noon] [mkTransaction "A" "B" 10] []).
Proof. reflexivity. Qed.

(** ** Mining *)

(** What [mine] does once the search has returned. *)
Lemma mine_after_search fuel now node_identifier self last q :
  item_last (chain self) = Returns last ->
  proof_of_work fuel (proof last) = Some q ->
  mine fuel now node_identifier self =
  (let b := mkBlock (len (chain self) + 1) now
                    (current_transactions self ++ [mkTransaction "0" node_identifier 1])
                    q (VStr (hash last)) in
   (Returns (mkForged "New Block Forged" (index b) (transactions b) (proof b)
               (previous_hash b), 200),
    mkBlockchain (chain self ++ [b]) [] (nodes self))).
Proof.
  intros Hlast Hq. unfold mine, last_block. rewrite Hlast, Hq.
  unfold new_transaction, last_block. cbn [chain]. rewrite Hlast.
  unfold new_block. rewrite hash_truthy. reflexivity.
Qed.

(** X8. On a ledger with a last block for whose proof the search returns
    [q], the route [mine] answers with status 200 and appends one block:
    its index is the new length of the chain, its transactions are the
    pending ones followed by the reward (sender ["0"], amount 1, to the
    node), its proof is [q] and its [previous_hash] the digest of the
    former last block, so that the new pair passes both tests of the
    chain rule; the pool is empty afterwards. *)
Theorem mine_appends_linked_block (fuel : nat) (now : pyfloat) (node_identifier : string)
    (self : Blockchain) (last : Block) (q : Z) :
  item_last (chain self) = Returns last ->
  proof_of_work fuel (proof last) = Some q ->
  exists b,
    mine fuel now node_identifier self
    = (Returns (mkForged "New Block Forged" (index b) (transactions b) (proof b)
                  (previous_hash b), 200),
       mkBlockchain (chain self ++ [b]) [] (nodes self)) /\
    index b = len (chain self ++ [b]) /\
    transactions b = current_transactions self ++ [mkTransaction "0" node_identifier 1] /\
    proof b = q /\
    previous_hash b = VStr (hash last) /\
    timestamp b = now /\
    pair_linked last b = true.
Proof.
  intros Hlast Hq.
  eexists. split; [apply (mine_after_search _ _ _ _ _ _ Hlast Hq)|].
  cbn [index transactions proof previous_hash timestamp].
  repeat split.
  - unfold len. rewrite length_app. simpl. lia.
  - unfold pair_linked. cbn [previous_hash proof].
    rewrite value_eqb_refl.
    apply proof_of_work_from_sound in Hq. destruct Hq as (_ & Hq & _).
    rewrite Hq. reflexivity.
Qed.

Lemma mine_appends_linked_block_witness :
  exists b,
    mine 27 minute_later "node" short_search
    = (Returns (mkForged "New Block Forged" (index b) (transactions b) (proof b)
                  (previous_hash b), 200),
       mkBlockchain (chain short_search ++ [b]) [] (nodes short_search)) /\
    index b = len (chain short_search ++ [b]) /\
    transactions b = current_transactions short_search ++ [mkTransaction "0" "node" 1] /\
    proof b = 26 /\
    previous_hash b = VStr (hash (mkBlock 1 noon [] 2699 (VInt 1))) /\
    timestamp b = minute_later /\
    pair_linked (mkBlock 1 noon [] 2699 (VInt 1)) b = true.
Proof.
  apply (mine_appends_linked_block 27 minute_later "node" short_search
           (mkBlock 1 noon [] 2699 (VInt 1)) 26).
  - reflexivity.
  - vm_compute. reflexivity.
Defined.

(** X9. [mine] is all or nothing: unless it returns its answer, the
    ledger is as it was before the request; in particular a search that
    has not ended has not submitted the reward. *)
Theorem mine_changes_nothing_unless_it_returns (fuel : nat) (now : pyfloat)
    (node_identifier : string) (self : Blockchain) :
  (forall answer, fst (mine fuel now node_identifier self) <> Returns answer) ->
  snd (mine fuel now node_identifier self) = self.
Proof.
  intro H.
  destruct (item_last (chain self)) as [last| e |] eqn:Hlast.
  - destruct (proof_of_work fuel (proof last)) as [q|] eqn:Hq.
    + exfalso. rewrite (mine_after_search _ now node_identifier _ _ _ Hlast Hq) in H.
      eapply H. reflexivity.
    + unfold mine, last_block. rewrite Hlast, Hq. reflexivity.
  - unfold mine, last_block. rewrite Hlast. reflexivity.
  - unfold mine, last_block. rewrite Hlast. reflexivity.
Qed.

Lemma mine_changes_nothing_unless_it_returns_witness :
  snd (mine 20 minute_later "node" short_search) = short_search.
Proof.
  apply (mine_changes_nothing_unless_it_returns 20 minute_later "node" short_search).
  intro answer.
  assert (E : mine 20 minute_later "node" short_search = (Unfinished, short_search))
    by (vm_compute; reflexivity).
  rewrite E. discriminate.
Defined.

(** Appending a block linked to the last one keeps a chain linked. *)
Lemma linked_app chain :
  forall last b,
    item_last chain = Returns last ->
    every_adjacent_pair_linked chain = true ->
    pair_linked last b = true ->
    every_adjacent_pair_linked (chain ++ [b]) = true.
Proof.
  induction chain as [|b1 rest IH]; intros last b Hlast Hlinked Hpair; [discriminate|].
  destruct rest as [|b2 rest].
  - injection Hlast as ->. cbn [app every_adjacent_pair_linked].
    rewrite Hpair. reflexivity.
  - cbn [every_adjacent_pair_linked] in Hlinked.
    apply andb_true_iff in Hlinked. destruct Hlinked as [H12 Hrest].
    change ((b1 :: b2 :: rest) ++ [b]) with (b1 :: ((b2 :: rest) ++ [b])).
    change ((b2 :: rest) ++ [b]) with (b2 :: (rest ++ [b])).
    cbn [every_adjacent_pair_linked]. rewrite H12. cbn [andb].
    change (b2 :: (rest ++ [b])) with ((b2 :: rest) ++ [b]).
    apply (IH last b); [|exact Hrest | exact Hpair].
    unfold item_last in *. cbn [rev] in *.
    destruct (rev rest ++ [b2]) as [|x l] eqn:E.
    + destruct (rev rest); discriminate.
    + cbn [app] in Hlast. exact Hlast.
Qed.

(** A returning [mine] is a [new_transaction] step followed by a
    [new_block] step, and the block appended is linked to the former last
    block. *)
Lemma mine_is_two_steps fuel now node_identifier self last q :
  item_last (chain self) = Returns last ->
  proof_of_work fuel (proof last) = Some q ->
  exists b,
    mine fuel now node_identifier self
    = (Returns (mkForged "New Block Forged" (index b) (transactions b) (proof b)
                  (previous_hash b), 200),
       mkBlockchain (chain self ++ [b]) [] (nodes self)) /\
    (exists pending,
        step self pending /\
        step pending (mkBlockchain (chain self ++ [b]) [] (nodes self))) /\
    pair_linked last b = true.
Proof.
  intros Hlast Hq.
  eexists. split; [apply (mine_after_search _ _ _ _ _ _ Hlast Hq)|]. split.
  - exists (mkBlockchain (chain self)
              (current_transactions self ++ [mkTransaction "0" node_identifier 1])
              (nodes self)).
    split.
    + apply step_new_transaction
        with (s := "0"%string) (r := node_identifier) (a := 1) (n := index last + 1).
      unfold new_transaction, last_block. cbn [chain]. rewrite Hlast. reflexivity.
    + eapply step_new_block with (now := now) (p := q) (ph := VStr (hash last)).
      unfold new_block. rewrite hash_truthy. reflexivity.
  - unfold pair_linked. cbn [previous_hash proof].
    rewrite value_eqb_refl.
    apply proof_of_work_from_sound in Hq. destruct Hq as (_ & Hq & _).
    rewrite Hq. reflexivity.
Qed.

(** X10. Every ledger that a node gets to through its routes alone
    (created, then transactions posted and blocks mined) is reachable in
    the sense of C8, and every adjacent pair of its chain is linked: the
    later block carries the digest of the earlier one and a proof that
    [valid_proof] accepts after the earlier proof. *)
Theorem served_chain_is_linked (self : Blockchain) :
  served self ->
  reachable self /\ every_adjacent_pair_linked (chain self) = true.
Proof.
  induction 1 as [now self Hinit
                 | values self answer self' Hserved [Hreach Hlinked] Hroute
                 | fuel now node_identifier self answer self' Hserved [Hreach Hlinked] Hmine].
  - split; [apply reachable_init with (now := now); exact Hinit|].
    rewrite init_fresh_node in Hinit. injection Hinit as <-. reflexivity.
  - unfold new_transaction_route in Hroute.
    destruct (form_sender values) as [s|], (form_recipient values) as [r|],
             (form_amount values) as [a|];
      try (injection Hroute as _ <-; split; assumption).
    destruct (new_transaction s r a self) as [[n| e |] after] eqn:E; try discriminate.
    injection Hroute as _ <-. split.
    + apply reachable_step with (self := self); [exact Hreach|].
      apply step_new_transaction with (s := s) (r := r) (a := a) (n := n). exact E.
    + unfold new_transaction in E.
      destruct (last_block _); injection E as _ <-; exact Hlinked.
  - destruct (item_last (chain self)) as [last| e |] eqn:Hlast;
      try (unfold mine, last_block in Hmine; rewrite Hlast in Hmine; discriminate).
    destruct (proof_of_work fuel (proof last)) as [q|] eqn:Hq;
      [|unfold mine, last_block in Hmine; rewrite Hlast, Hq in Hmine; discriminate].
    destruct (mine_is_two_steps fuel now node_identifier self last q Hlast Hq)
      as (b & Hb & Hsteps & Hpair).
    rewrite Hb in Hmine. injection Hmine as _ <-. split.
    + destruct Hsteps as (pending & Hs1 & Hs2).
      apply reachable_step with (self := pending); [|exact Hs2].
      apply reachable_step with (self := self); [exact Hreach | exact Hs1].
    + cbn [chain]. apply (linked_app (chain self) last b Hlast Hlinked Hpair).
Qed.

(** A ledger created and mined once: the search after the genesis proof
    100 returns (35293 is valid), and with the proof [q] it returns the
    chain has the pair made of the genesis block and the mined block. *)
Lemma served_chain_is_linked_witness :
  exists q,
    0 <= q <= 35293 /\
    reachable
      (mkBlockchain
         [genesis_block noon;
          mkBlock 2 minute_later [mkTransaction "0" "node" 1] q
                  (VStr (hash (genesis_block noon)))] [] []) /\
    every_adjacent_pair_linked
      (chain
         (mkBlockchain
            [genesis_block noon;
             mkBlock 2 minute_later [mkTransaction "0" "node" 1] q
                     (VStr (hash (genesis_block noon)))] [] [])) = true.
Proof.
  destruct (proof_of_work_from_finds 100 35293 valid_proof_100_35293
              (S (Z.to_nat 35293)) 0) as (q & Hq).
  - lia.
  - rewrite Z.sub_0_r. apply Nat.lt_succ_diag_r.
  - exists q. split.
    + destruct (proof_of_work_from_sound _ _ _ _ Hq) as (H0 & _ & Hmin).
      split; [exact H0|].
      destruct (Z.le_gt_cases q 35293) as [Hle | Hgt]; [exact Hle|].
      exfalso. pose proof (Hmin 35293 ltac:(lia)) as Hno.
      rewrite valid_proof_100_35293 in Hno. discriminate.
    + apply (served_chain_is_linked
               (mkBlockchain
                  [genesis_block noon;
                   mkBlock 2 minute_later [mkTransaction "0" "node" 1] q
                           (VStr (hash (genesis_block noon)))] [] [])).
      apply served_mine
        with (fuel := S (Z.to_nat 35293)) (now := minute_later)
             (node_identifier := "node"%string) (self := fresh_node noon [])
             (answer := (mkForged "New Block Forged" 2 [mkTransaction "0" "node" 1] q
                           (VStr (hash (genesis_block noon))), 200)).
      * apply served_init with (now := noon). reflexivity.
      * rewrite (mine_after_search (S (Z.to_nat 35293)) minute_later "node"
                   (fresh_node noon []) (genesis_block noon) q eq_refl Hq).
        reflexivity.
Defined.

(** ** Consensus between nodes *)

Section ResolveBound.

Variable requests_get : string -> outcome Response.
Variable validate : list Block -> outcome bool.


End ResolveBound.

(** X11. A node with a block never adopts a chain from peers that serve
    their ledger through the route [full_chain]: whatever their chains,
    [resolve_conflicts] does not return [True] and leaves the ledger as
    it was (it returns [False], or the scan of a longer chain raises). *)
Theorem resolve_conflicts_never_adopts_served_chain (fuel : nat)
    (requests_get : string -> outcome Response) (self : Blockchain) :
  chain self <> [] ->
  (forall url response,
     requests_get url = Returns response -> exists peer, response = full_chain peer) ->
  fst (resolve_conflicts fuel requests_get self) <> Returns true /\
  snd (resolve_conflicts fuel requests_get self) = self.
Proof.
  intros Hne Hpeers.
  assert (H : fst (resolve_conflicts fuel requests_get self) <> Returns true).
  { intro H.
    destruct (resolve_conflicts fuel requests_get self) as [r self'] eqn:E.
    cbn [fst] in H. subst r.
    apply resolve_conflicts_returns_true_iff in E. destruct E as [[E _] _].
    destruct (E eq_refl) as (node & response & _ & Hg & _ & Hl & Hv).
    destruct (Hpeers _ _ Hg) as (peer & ->).
    cbn [full_chain json_length json_chain] in Hl, Hv.
    apply valid_chain_true_one_block in Hv. destruct Hv as (b & Hb).
    rewrite Hb in Hl.
    destruct (chain self) as [|b0 rest]; [contradiction|].
    unfold len in Hl. simpl length in Hl. lia. }
  split; [exact H|].
  apply (resolve_untouched_unless_true requests_get (valid_chain fuel) self). exact H.
Qed.

Lemma resolve_conflicts_never_adopts_served_chain_witness :
  fst (resolve_conflicts 5
         (fun _ => Returns (full_chain (mkBlockchain (sealed_once noon minute_later) [] [])))
         (fresh_node noon ["peer:5000"%string])) <> Returns true /\
  snd (resolve_conflicts 5
         (fun _ => Returns (full_chain (mkBlockchain (sealed_once noon minute_later) [] [])))
         (fresh_node noon ["peer:5000"%string]))
  = fresh_node noon ["peer:5000"%string].
Proof.
  apply (resolve_conflicts_never_adopts_served_chain 5
           (fun _ => Returns (full_chain (mkBlockchain (sealed_once noon minute_later) [] [])))
           (fresh_node noon ["peer:5000"%string])).
  - simpl. discriminate.
  - intros url response H. injection H as <-. eexists. reflexivity.
Defined.

(** X12. The reported length is taken on trust and a chain of one block
    is not examined: if the only peer answers with status 200, a single
    block and a length above the local one, that block becomes the whole
    local chain, whatever its fields and however long the local chain
    was; the pool and the peers stay. *)
Theorem resolve_conflicts_trusts_reported_length (fuel : nat)
    (requests_get : string -> outcome Response) (self : Blockchain)
    (node : string) (b : Block) (reported : Z) :
  nodes self = [node] ->
  requests_get (url_of node) = Returns (mkResponse 200 reported [b]) ->
  reported > len (chain self) ->
  resolve_conflicts (S fuel) requests_get self
  = (Returns true, mkBlockchain [b] (current_transactions self) (nodes self)).
Proof.
  intros Hn Hg Hl.
  unfold resolve_conflicts, resolve_conflicts_with. rewrite Hn.
  cbn [resolve_loop]. rewrite Hg. cbn [status_code json_length json_chain].
  change (200 =? 200) with true. cbv iota.
  apply Z.gt_lt in Hl. apply Z.gtb_lt in Hl. rewrite Hl.
  unfold valid_chain. rewrite valid_chain_one_block. reflexivity.
Qed.

Lemma resolve_conflicts_trusts_reported_length_witness :
  resolve_conflicts 5 (fun _ => Returns (mkResponse 200 3 [stray_block]))
    (mkBlockchain (sealed_once noon minute_later) three_transactions ["peer:5000"%string])
  = (Returns true,
     mkBlockchain [stray_block]
       (current_transactions
          (mkBlockchain (sealed_once noon minute_later) three_transactions
             ["peer:5000"%string]))
       (nodes (mkBlockchain (sealed_once noon minute_later) three_transactions
                 ["peer:5000"%string]))).
Proof.
  apply (resolve_conflicts_trusts_reported_length 4
           (fun _ => Returns (mkResponse 200 3 [stray_block]))
           (mkBlockchain (sealed_once noon minute_later) three_transactions
              ["peer:5000"%string])
           "peer:5000" stray_block 3).
  - reflexivity.
  - reflexivity.
  - reflexivity.
Defined.


